(** * upf_monitor.bpf.c: the gtp5g monitoring probes, embedded and verified

    A shallow embedding of [internal/ebpf/bpf/upf_monitor.bpf.c]: the record
    types sent to user space, the BPF maps, the four inlined helpers and the
    three attached programs.  One program invocation is a function from the
    maps (and what the kernel supplies to that invocation) to a return code
    and the new maps. *)

From stdpp Require Import gmap strings list fin_maps.
From Stdlib Require Import NArith ZArith Lia.

Local Open Scope N_scope.

(** ** Fixed-width unsigned integers

    [__u8], [__u16], [__u32] and [__u64] values are naturals; a conversion to
    a w-bit type keeps the value modulo 2^w. *)

Definition u8 (x : N) : N := x mod 2 ^ 8.
Definition u16 (x : N) : N := x mod 2 ^ 16.
Definition u32 (x : N) : N := x mod 2 ^ 32.
Definition u64 (x : N) : N := x mod 2 ^ 64.

(** ** Constants *)

Definition ETH_P_IP : N := 0x0800.
Definition IPPROTO_UDP : N := 17.
Definition GTP_U_PORT : N := 2152.

Definition DIRECTION_UPLINK : N := 0.
Definition DIRECTION_DOWNLINK : N := 1.

Definition DROP_REASON_NO_PDR : N := 0.
Definition DROP_REASON_INVALID_TEID : N := 1.
Definition DROP_REASON_QOS : N := 2.
Definition DROP_REASON_KERNEL : N := 3.

(** ** Struct declarations and their layout

    The declarations are kept as data, so that [sizeof] and the field offsets
    are computed by the layout rule of the target (every scalar aligned to
    its own size, the struct aligned to its widest member and padded at the
    end to a multiple of that alignment). *)

Inductive ctype : Type :=
  | U8 | U16 | U32 | U64
  | Arr (elt : ctype) (n : N).

Fixpoint sizeof_type (t : ctype) : N :=
  match t with
  | U8 => 1 | U16 => 2 | U32 => 4 | U64 => 8
  | Arr elt n => n * sizeof_type elt
  end.

Fixpoint alignof_type (t : ctype) : N :=
  match t with
  | U8 => 1 | U16 => 2 | U32 => 4 | U64 => 8
  | Arr elt _ => alignof_type elt
  end.

Definition struct_decl : Type := list (string * ctype).

Definition round_up (x a : N) : N := ((x + a - 1) / a) * a.

(** Offsets of the fields, in declaration order, starting at [off]; the
    second component is the offset just past the last field. *)
Fixpoint layout_from (off : N) (fields : struct_decl) : list (string * N) * N :=
  match fields with
  | [] => ([], off)
  | (name, t) :: rest =>
      let o := round_up off (alignof_type t) in
      let '(l, e) := layout_from (o + sizeof_type t) rest in
      ((name, o) :: l, e)
  end.

Definition field_offsets (d : struct_decl) : list (string * N) :=
  fst (layout_from 0 d).

Definition fields_end (d : struct_decl) : N := snd (layout_from 0 d).

Definition alignof_struct (d : struct_decl) : N :=
  foldr (fun f a => N.max (alignof_type (snd f)) a) 1 d.

Definition sizeof_struct (d : struct_decl) : N :=
  round_up (fields_end d) (alignof_struct d).

(** Sum of the widths of the fields, padding members included. *)
Definition sum_widths (d : struct_decl) : N :=
  foldr (fun f a => sizeof_type (snd f) + a) 0 d.

(** Offsets obtained by adding up the widths of the preceding fields. *)
Fixpoint packed_offsets_from (off : N) (fields : struct_decl) : list (string * N) :=
  match fields with
  | [] => []
  | (name, t) :: rest => (name, off) :: packed_offsets_from (off + sizeof_type t) rest
  end.

Definition packed_offsets (d : struct_decl) : list (string * N) :=
  packed_offsets_from 0 d.

Definition traffic_counter_decl : struct_decl :=
  [("packets", U64); ("bytes", U64); ("timestamp", U64)]%string.

Definition drop_event_decl : struct_decl :=
  [("timestamp", U64); ("teid", U32); ("src_ip", U32); ("dst_ip", U32);
   ("src_port", U16); ("dst_port", U16); ("pkt_len", U32);
   ("reason", U8); ("direction", U8); ("pad", Arr U8 2)]%string.

Definition packet_event_decl : struct_decl :=
  [("timestamp", U64); ("teid", U32); ("src_ip", U32); ("dst_ip", U32);
   ("pkt_len", U32); ("direction", U8); ("qfi", U8); ("pad", Arr U8 2)]%string.

Definition session_info_decl : struct_decl :=
  [("seid", U64); ("ue_ip", U32); ("upf_ip", U32); ("created_at", U64)]%string.

(** ** Struct values *)

Module traffic_counter.
Record t : Type := mk { packets : N; bytes : N; timestamp : N }.
Definition zero : t := mk 0 0 0.
End traffic_counter.

Module drop_event.
Record t : Type := mk {
  timestamp : N;
  teid : N;
  src_ip : N;
  dst_ip : N;
  src_port : N;
  dst_port : N;
  pkt_len : N;
  reason : N;
  direction : N;
  pad : list N
}.
End drop_event.

Module packet_event.
Record t : Type := mk {
  timestamp : N;
  teid : N;
  src_ip : N;
  dst_ip : N;
  pkt_len : N;
  direction : N;
  qfi : N;
  pad : list N
}.
End packet_event.

Module session_info.
Record t : Type := mk { seid : N; ue_ip : N; upf_ip : N; created_at : N }.
End session_info.

(** The one field of [struct sk_buff] the programs read. *)
Module sk_buff.
Record t : Type := mk { len : N }.
End sk_buff.

(** The tracepoint context: [skbaddr] is a pointer, null or to a packet. *)
Module trace_event_raw_kfree_skb.
Record t : Type := mk { skbaddr : option sk_buff.t; location : N }.
End trace_event_raw_kfree_skb.

(** ** BPF maps *)

Definition traffic_stats_max_entries : N := 2.
Definition drop_events_max_entries : N := 256 * 1024.
Definition packet_events_max_entries : N := 512 * 1024.
Definition teid_session_map_max_entries : N := 4096.
Definition teid_stats_max_entries : N := 4096.
Definition agent_config_max_entries : N := 4.

(** [traffic_stats] holds one array per CPU; the ring buffers hold their
    committed records, oldest first; the hash maps are finite maps keyed by
    TEID; [agent_config] is an array of flags. *)
Record maps : Type := mkMaps {
  traffic_stats : list (list traffic_counter.t);
  drop_events : list drop_event.t;
  packet_events : list packet_event.t;
  teid_session_map : gmap N session_info.t;
  teid_stats : gmap N traffic_counter.t;
  agent_config : list N
}.

Definition set_traffic_stats (v : list (list traffic_counter.t)) (st : maps) : maps :=
  mkMaps v (drop_events st) (packet_events st) (teid_session_map st)
         (teid_stats st) (agent_config st).

Definition set_drop_events (v : list drop_event.t) (st : maps) : maps :=
  mkMaps (traffic_stats st) v (packet_events st) (teid_session_map st)
         (teid_stats st) (agent_config st).

Definition set_packet_events (v : list packet_event.t) (st : maps) : maps :=
  mkMaps (traffic_stats st) (drop_events st) v (teid_session_map st)
         (teid_stats st) (agent_config st).

Definition set_teid_stats (v : gmap N traffic_counter.t) (st : maps) : maps :=
  mkMaps (traffic_stats st) (drop_events st) (packet_events st)
         (teid_session_map st) v (agent_config st).

(** What the kernel supplies to one invocation: the CPU it runs on, the
    reading of the monotonic clock, and the bytes found in a freshly reserved
    ring-buffer slot (a reservation is not zeroed). *)
Record env : Type := mkEnv {
  cpu : nat;
  ktime_ns : N;
  drop_slot : drop_event.t;
  packet_slot : packet_event.t
}.

(** ** Kernel helpers *)

Definition bpf_ktime_get_ns (e : env) : N := u64 (ktime_ns e).

(** [bpf_map_lookup_elem] on a [BPF_MAP_TYPE_ARRAY]: null for an index out of
    the declared range. *)
Definition array_lookup {V} (max_entries : N) (m : list V) (key : N) : option V :=
  if key <? max_entries then m !! N.to_nat key else None.

(** On a [BPF_MAP_TYPE_PERCPU_ARRAY] the lookup goes to the running CPU's
    array. *)
Definition percpu_array_lookup {V} (max_entries : N) (m : list (list V))
    (c : nat) (key : N) : option V :=
  match m !! c with
  | Some row => array_lookup max_entries row key
  | None => None
  end.

(** A store through the pointer a per-CPU lookup returned. *)
Definition percpu_array_store {V} (m : list (list V)) (c : nat) (key : N) (v : V)
    : list (list V) :=
  alter (fun row => <[N.to_nat key := v]> row) c m.

Definition E2BIG : Z := 7.

(** [bpf_map_update_elem(..., BPF_ANY)] on a [BPF_MAP_TYPE_HASH]: an existing
    key is overwritten; a new key is added unless the map already holds
    [max_entries] keys, in which case the call fails and changes nothing. *)
Definition hash_update {V} (max_entries : N) (m : gmap N V) (key : N) (v : V)
    : Z * gmap N V :=
  match m !! key with
  | Some _ => (0%Z, <[key := v]> m)
  | None =>
      if N.of_nat (size m) <? max_entries
      then (0%Z, <[key := v]> m)
      else ((- E2BIG)%Z, m)
  end.

Definition BPF_RINGBUF_HDR_SZ : N := 8.

(** Bytes one record of [size] bytes takes in a ring buffer. *)
Definition ringbuf_record_len (size : N) : N :=
  round_up (size + BPF_RINGBUF_HDR_SZ) 8.

(** The producer may run at most [max_entries - 1] bytes ahead of the
    consumer.  The buffer is given by its unconsumed records, each of [size]
    bytes. *)
Definition ringbuf_has_room {T} (max_entries : N) (rb : list T) (size : N) : bool :=
  let len := ringbuf_record_len size in
  N.of_nat (length rb) * len + len <=? max_entries - 1.

(** [bpf_ringbuf_reserve]: null when the record does not fit; otherwise the
    reserved slot, with whatever it contained ([slot]). *)
Definition bpf_ringbuf_reserve {T} (max_entries : N) (rb : list T) (size : N)
    (slot : T) : option T :=
  if ringbuf_has_room max_entries rb size then Some slot else None.

(** [bpf_ringbuf_submit]: the record becomes visible after the earlier ones. *)
Definition bpf_ringbuf_submit {T} (rb : list T) (event : T) : list T :=
  rb ++ [event].

(** ** Helper functions *)

Definition update_traffic_counter (e : env) (direction len : N) (st : maps) : maps :=
  let direction := u32 direction in
  let len := u32 len in
  match percpu_array_lookup traffic_stats_max_entries (traffic_stats st) (cpu e) direction with
  | Some counter =>
      let counter' :=
        traffic_counter.mk
          (u64 (traffic_counter.packets counter + 1))
          (u64 (traffic_counter.bytes counter + len))
          (bpf_ktime_get_ns e) in
      set_traffic_stats
        (percpu_array_store (traffic_stats st) (cpu e) direction counter') st
  | None => st
  end.

Definition update_teid_counter (e : env) (teid len : N) (st : maps) : maps :=
  let teid := u32 teid in
  let len := u32 len in
  match teid_stats st !! teid with
  | Some counter =>
      let counter' :=
        traffic_counter.mk
          (u64 (traffic_counter.packets counter + 1))
          (u64 (traffic_counter.bytes counter + len))
          (bpf_ktime_get_ns e) in
      set_teid_stats (<[teid := counter']> (teid_stats st)) st
  | None =>
      let new_counter := traffic_counter.mk 1 len (bpf_ktime_get_ns e) in
      set_teid_stats
        (snd (hash_update teid_stats_max_entries (teid_stats st) teid new_counter)) st
  end.

Definition emit_drop_event (e : env) (teid src_ip dst_ip pkt_len reason direction : N)
    (st : maps) : maps :=
  match bpf_ringbuf_reserve drop_events_max_entries (drop_events st)
          (sizeof_struct drop_event_decl) (drop_slot e) with
  | None => st
  | Some event =>
      let event' :=
        drop_event.mk
          (bpf_ktime_get_ns e)
          (u32 teid)
          (u32 src_ip)
          (u32 dst_ip)
          0
          0
          (u32 pkt_len)
          (u8 reason)
          (u8 direction)
          (drop_event.pad event) in
      set_drop_events (bpf_ringbuf_submit (drop_events st) event') st
  end.

Definition emit_packet_event (e : env) (teid src_ip dst_ip pkt_len direction qfi : N)
    (st : maps) : maps :=
  let key := 0 in
  match array_lookup agent_config_max_entries (agent_config st) key with
  | None => st
  | Some enabled =>
      if enabled =? 0 then st
      else
        match bpf_ringbuf_reserve packet_events_max_entries (packet_events st)
                (sizeof_struct packet_event_decl) (packet_slot e) with
        | None => st
        | Some event =>
            let event' :=
              packet_event.mk
                (bpf_ktime_get_ns e)
                (u32 teid)
                (u32 src_ip)
                (u32 dst_ip)
                (u32 pkt_len)
                (u8 direction)
                (u8 qfi)
                (packet_event.pad event) in
            set_packet_events (bpf_ringbuf_submit (packet_events st) event') st
        end
  end.

(** ** The attached programs

    Each returns the program's return value and the maps it leaves.  [sk] and
    [dev] are pointers the programs never follow. *)

Definition kprobe_gtp5g_encap_recv (e : env) (sk : N) (skb : option sk_buff.t)
    (st : maps) : Z * maps :=
  match skb with
  | None => (0%Z, st)
  | Some s =>
      let len := u32 (sk_buff.len s) in
      (0%Z, update_traffic_counter e DIRECTION_UPLINK len st)
  end.

Definition kprobe_gtp5g_dev_xmit (e : env) (skb : option sk_buff.t) (dev : N)
    (st : maps) : Z * maps :=
  match skb with
  | None => (0%Z, st)
  | Some s =>
      let len := u32 (sk_buff.len s) in
      (0%Z, update_traffic_counter e DIRECTION_DOWNLINK len st)
  end.

Definition tracepoint_kfree_skb (e : env) (ctx : trace_event_raw_kfree_skb.t)
    (st : maps) : Z * maps :=
  let key := 1 in
  match array_lookup agent_config_max_entries (agent_config st) key with
  | None => (0%Z, st)
  | Some enabled =>
      if enabled =? 0 then (0%Z, st)
      else
        match trace_event_raw_kfree_skb.skbaddr ctx with
        | None => (0%Z, st)
        | Some s =>
            let len := u32 (sk_buff.len s) in
            if len <? 20 then (0%Z, st)
            else (0%Z, emit_drop_event e 0 0 0 len DROP_REASON_KERNEL 0 st)
        end
  end.

(** ** Runs of the probes

    A run is a sequence of invocations, each with what the kernel supplied
    to it. *)

Inductive invocation : Type :=
  | Encap_recv (e : env) (sk : N) (skb : option sk_buff.t)
  | Dev_xmit (e : env) (skb : option sk_buff.t) (dev : N)
  | Kfree_skb (e : env) (ctx : trace_event_raw_kfree_skb.t).

Definition invoke (i : invocation) (st : maps) : Z * maps :=
  match i with
  | Encap_recv e sk skb => kprobe_gtp5g_encap_recv e sk skb st
  | Dev_xmit e skb dev => kprobe_gtp5g_dev_xmit e skb dev st
  | Kfree_skb e ctx => tracepoint_kfree_skb e ctx st
  end.

Fixpoint run (tr : list invocation) (st : maps) : maps :=
  match tr with
  | [] => st
  | i :: rest => run rest (snd (invoke i st))
  end.

(** The maps as the loader creates them on a machine with [ncpus] CPUs:
    arrays zeroed, hash maps and ring buffers empty. *)
Definition initial_maps (ncpus : nat) : maps :=
  mkMaps
    (replicate ncpus (replicate (N.to_nat traffic_stats_max_entries) traffic_counter.zero))
    [] [] ∅ ∅
    (replicate (N.to_nat agent_config_max_entries) 0).

(** Every CPU's copy of [traffic_stats] has the declared number of slots. *)
Definition traffic_stats_wf (st : maps) : Prop :=
  Forall (fun row => length row = N.to_nat traffic_stats_max_entries) (traffic_stats st).

(** A configuration flag that reads as off: no entry, or the value 0. *)
Definition flag_off (st : maps) (key : N) : Prop :=
  array_lookup agent_config_max_entries (agent_config st) key = None
  \/ array_lookup agent_config_max_entries (agent_config st) key = Some 0.

Definition drop_channel_has_room (st : maps) : bool :=
  ringbuf_has_room drop_events_max_entries (drop_events st)
    (sizeof_struct drop_event_decl).

Definition packet_channel_has_room (st : maps) : bool :=
  ringbuf_has_room packet_events_max_entries (packet_events st)
    (sizeof_struct packet_event_decl).

Definition ports_zero (ev : drop_event.t) : Prop :=
  drop_event.src_port ev = 0 /\ drop_event.dst_port ev = 0.

(** The running CPU's counter for [direction]. *)
Definition direction_counter (st : maps) (c : nat) (direction : N)
    : option traffic_counter.t :=
  percpu_array_lookup traffic_stats_max_entries (traffic_stats st) c direction.

(** [c'] is [c] after one packet of [len] bytes was counted in 64-bit
    arithmetic; without overflow that is one packet and [len] bytes more. *)
Definition counted (len : N) (c c' : traffic_counter.t) : Prop :=
  traffic_counter.packets c' = u64 (traffic_counter.packets c + 1)
  /\ traffic_counter.bytes c' = u64 (traffic_counter.bytes c + len)
  /\ (traffic_counter.packets c + 1 < 2 ^ 64 ->
      traffic_counter.packets c' = traffic_counter.packets c + 1)
  /\ (traffic_counter.bytes c + len < 2 ^ 64 ->
      traffic_counter.bytes c' = traffic_counter.bytes c + len).

(** The two event channels, and one publish attempt on either: the six
    arguments are those of the emitter of that channel, in its order. *)
Inductive channel : Type := Drop_channel | Packet_channel.

Definition reservation (ch : channel) (e : env) (st : maps) : option unit :=
  match ch with
  | Drop_channel =>
      match bpf_ringbuf_reserve drop_events_max_entries (drop_events st)
              (sizeof_struct drop_event_decl) (drop_slot e) with
      | Some _ => Some tt
      | None => None
      end
  | Packet_channel =>
      match bpf_ringbuf_reserve packet_events_max_entries (packet_events st)
              (sizeof_struct packet_event_decl) (packet_slot e) with
      | Some _ => Some tt
      | None => None
      end
  end.

Definition publish (ch : channel) (e : env) (a1 a2 a3 a4 a5 a6 : N) (st : maps) : maps :=
  match ch with
  | Drop_channel => emit_drop_event e a1 a2 a3 a4 a5 a6 st
  | Packet_channel => emit_packet_event e a1 a2 a3 a4 a5 a6 st
  end.

(** ** Concrete inputs used in the examples below *)

Definition stale_drop : drop_event.t :=
  drop_event.mk 11 12 13 14 15 16 17 18 19 [0xAA; 0xBB].

Definition stale_packet : packet_event.t :=
  packet_event.mk 21 22 23 24 25 26 27 [0xCC; 0xDD].

Definition env0 : env := mkEnv 0 1000 stale_drop stale_packet.
Definition env1 : env := mkEnv 0 2000 stale_drop stale_packet.

Definition pkt (n : N) : option sk_buff.t := Some (sk_buff.mk n).

(** One CPU, drop tracing switched on. *)
Definition tracing_maps : maps :=
  mkMaps [[traffic_counter.zero; traffic_counter.zero]] [] [] ∅ ∅ [0; 1; 0; 0].

(** One CPU whose uplink packet counter holds the largest 64-bit value. *)
Definition saturated_maps : maps :=
  mkMaps [[traffic_counter.mk (2 ^ 64 - 1) 0 0; traffic_counter.zero]]
         [] [] ∅ ∅ [0; 0; 0; 0].

(** One CPU and a config table without entries. *)
Definition empty_config_maps : maps :=
  mkMaps [[traffic_counter.zero; traffic_counter.zero]] [] [] ∅ ∅ [].

(** A short run: an uplink packet, a downlink packet, two freed packets. *)
Definition sample_run : list invocation :=
  [Encap_recv env0 0 (pkt 100);
   Dev_xmit env1 (pkt 60) 0;
   Kfree_skb env1 (trace_event_raw_kfree_skb.mk (pkt 64) 0);
   Kfree_skb env1 (trace_event_raw_kfree_skb.mk (pkt 12) 0)].

(** [teid_stats] holding the TEIDs 0 .. 4095, that is [max_entries] keys. *)
Definition full_teid_stats : gmap N traffic_counter.t :=
  list_to_map (map (fun k => (N.of_nat k, traffic_counter.zero)) (seq 0 4096)).

Definition full_teid_maps : maps :=
  set_teid_stats full_teid_stats (initial_maps 1).

(** Both ring buffers filled up to the last record that fits, both flags on. *)
Definition saturated_channels : maps :=
  mkMaps [[traffic_counter.zero; traffic_counter.zero]]
         (replicate (N.to_nat 6553) stale_drop)
         (replicate (N.to_nat 13107) stale_packet)
         ∅ ∅ [1; 1; 0; 0].

(** ** Notions used to state what runs of the probes do *)

Definition set_agent_config (v : list N) (st : maps) : maps :=
  mkMaps (traffic_stats st) (drop_events st) (packet_events st)
         (teid_session_map st) (teid_stats st) v.

(** The length invocation [i] makes the kprobes add to the counter of
    [direction] on CPU [c]: that of a non-null packet seen by the kprobe of
    that direction running on that CPU. *)
Definition observed (c : nat) (direction : N) (i : invocation) : option N :=
  match i with
  | Encap_recv e _ (Some s) =>
      if (cpu e =? c)%nat && (direction =? DIRECTION_UPLINK)
      then Some (u32 (sk_buff.len s)) else None
  | Dev_xmit e (Some s) _ =>
      if (cpu e =? c)%nat && (direction =? DIRECTION_DOWNLINK)
      then Some (u32 (sk_buff.len s)) else None
  | _ => None
  end.

Fixpoint observed_packets (c : nat) (direction : N) (tr : list invocation) : N :=
  match tr with
  | [] => 0
  | i :: rest =>
      match observed c direction i with Some _ => 1 | None => 0 end
      + observed_packets c direction rest
  end.

Fixpoint observed_bytes (c : nat) (direction : N) (tr : list invocation) : N :=
  match tr with
  | [] => 0
  | i :: rest =>
      match observed c direction i with Some len => len | None => 0 end
      + observed_bytes c direction rest
  end.

(** The two counts of a counter are 64-bit values. *)
Definition counter_in_range (k : traffic_counter.t) : Prop :=
  traffic_counter.packets k < 2 ^ 64 /\ traffic_counter.bytes k < 2 ^ 64.


Definition packet_events_capacity : nat :=
  N.to_nat ((packet_events_max_entries - 1)
            / ringbuf_record_len (sizeof_struct packet_event_decl)).

(** A drop event as the packet-free tracepoint writes it. *)
Definition kernel_drop (ev : drop_event.t) : Prop :=
  drop_event.reason ev = DROP_REASON_KERNEL
  /\ drop_event.direction ev = 0
  /\ drop_event.teid ev = 0
  /\ drop_event.src_ip ev = 0
  /\ drop_event.dst_ip ev = 0
  /\ drop_event.src_port ev = 0
  /\ drop_event.dst_port ev = 0
  /\ 20 <= drop_event.pkt_len ev
  /\ drop_event.pkt_len ev < 2 ^ 32.

(** A series of observations of one TEID, each with its invocation's
    environment and its packet length. *)
Fixpoint observe_teid (obs : list (env * N)) (teid : N) (st : maps) : maps :=
  match obs with
  | [] => st
  | (e, len) :: rest => observe_teid rest teid (update_teid_counter e teid len st)
  end.

Definition total_len (obs : list (env * N)) : N :=
  foldr (fun o a => u32 (snd o) + a) 0 obs.

(** Two CPUs, the second with counters already in use. *)
Definition two_cpu_maps : maps :=
  mkMaps [[traffic_counter.mk 5 700 10; traffic_counter.mk 3 90 20];
          [traffic_counter.mk 8 4000 30; traffic_counter.zero]]
         [] [] ∅ ∅ [0; 1; 0; 0].

Definition env_cpu1 : env := mkEnv 1 3000 stale_drop stale_packet.

Definition mixed_run : list invocation :=
  [Encap_recv env0 0 (pkt 100);
   Encap_recv env_cpu1 0 (pkt 1500);
   Dev_xmit env1 (pkt 60) 0;
   Encap_recv env1 0 None;
   Kfree_skb env1 (trace_event_raw_kfree_skb.mk (pkt 64) 0);
   Encap_recv env1 0 (pkt 40)].

(** * Properties *)

(** ** Arithmetic of the fixed-width types *)

Lemma u32_small (x : N) : x < 2 ^ 32 -> u32 x = x.
Proof. intros H. unfold u32. now apply N.mod_small. Qed.

Lemma u64_small (x : N) : x < 2 ^ 64 -> u64 x = x.
Proof. intros H. unfold u64. now apply N.mod_small. Qed.

(** ** Lookups and stores on the maps *)

Lemma array_lookup_Some {V} (max_entries : N) (m : list V) (key : N) :
  key < max_entries -> (N.to_nat key < length m)%nat ->
  exists v, array_lookup max_entries m key = Some v.
Proof.
  intros Hk Hl. unfold array_lookup.
  apply N.ltb_lt in Hk. rewrite Hk.
  destruct (lookup_lt_is_Some_2 m (N.to_nat key) Hl) as [v Hv]. eauto.
Qed.

Lemma array_lookup_nil {V} (max_entries key : N) :
  array_lookup max_entries (@nil V) key = None.
Proof. unfold array_lookup. now destruct (key <? max_entries). Qed.

Lemma percpu_lookup_store_eq {V} (max_entries : N) (m : list (list V))
    (c : nat) (key : N) (v0 v : V) :
  percpu_array_lookup max_entries m c key = Some v0 ->
  percpu_array_lookup max_entries (percpu_array_store m c key v) c key = Some v.
Proof.
  unfold percpu_array_lookup, percpu_array_store, array_lookup.
  destruct (m !! c) as [row|] eqn:Hrow; [|discriminate].
  destruct (key <? max_entries) eqn:Hk; [|discriminate].
  intros Hv0. rewrite list_lookup_alter_eq, Hrow. simpl.
  apply list_lookup_insert_eq. eapply lookup_lt_Some; eauto.
Qed.

Lemma percpu_lookup_store_other_cpu {V} (max_entries : N) (m : list (list V))
    (c c' : nat) (key key' : N) (v : V) :
  c <> c' ->
  percpu_array_lookup max_entries (percpu_array_store m c key v) c' key'
  = percpu_array_lookup max_entries m c' key'.
Proof.
  intros Hne. unfold percpu_array_lookup, percpu_array_store.
  now rewrite list_lookup_alter_ne.
Qed.

Lemma percpu_lookup_store_other_key {V} (max_entries : N) (m : list (list V))
    (c : nat) (key key' : N) (v : V) :
  key <> key' ->
  percpu_array_lookup max_entries (percpu_array_store m c key v) c key'
  = percpu_array_lookup max_entries m c key'.
Proof.
  intros Hne. unfold percpu_array_lookup, percpu_array_store, array_lookup.
  rewrite list_lookup_alter_eq.
  destruct (m !! c) as [row|]; simpl; [|reflexivity].
  destruct (key' <? max_entries); [|reflexivity].
  apply list_lookup_insert_ne. lia.
Qed.

(** In a well-formed [traffic_stats] every direction has a slot on every
    CPU. *)
Lemma traffic_stats_slot (st : maps) (c : nat) (direction : N) :
  traffic_stats_wf st -> (c < length (traffic_stats st))%nat ->
  direction < traffic_stats_max_entries ->
  exists counter,
    percpu_array_lookup traffic_stats_max_entries (traffic_stats st) c direction
    = Some counter.
Proof.
  intros Hwf Hc Hd. unfold percpu_array_lookup.
  destruct (lookup_lt_is_Some_2 _ _ Hc) as [row Hrow]. rewrite Hrow.
  apply array_lookup_Some; [assumption|].
  unfold traffic_stats_wf in Hwf. rewrite Forall_lookup in Hwf.
  rewrite (Hwf _ _ Hrow). lia.
Qed.

(** What [update_traffic_counter] does to the slot it finds. *)
Lemma update_traffic_counter_slot (e : env) (direction len : N) (st : maps)
    (counter : traffic_counter.t) :
  direction < 2 ^ 32 -> len < 2 ^ 32 ->
  percpu_array_lookup traffic_stats_max_entries (traffic_stats st) (cpu e) direction
  = Some counter ->
  percpu_array_lookup traffic_stats_max_entries
    (traffic_stats (update_traffic_counter e direction len st)) (cpu e) direction
  = Some (traffic_counter.mk
            (u64 (traffic_counter.packets counter + 1))
            (u64 (traffic_counter.bytes counter + len))
            (bpf_ktime_get_ns e)).
Proof.
  intros Hd Hl Hc. unfold update_traffic_counter.
  rewrite (u32_small _ Hd), (u32_small _ Hl), Hc. simpl.
  eapply percpu_lookup_store_eq; eauto.
Qed.

(** Every other slot of [traffic_stats] keeps its value. *)
Lemma update_traffic_counter_other (e : env) (direction len : N) (st : maps)
    (c' : nat) (direction' : N) :
  direction < 2 ^ 32 ->
  c' <> cpu e \/ direction' <> direction ->
  percpu_array_lookup traffic_stats_max_entries
    (traffic_stats (update_traffic_counter e direction len st)) c' direction'
  = percpu_array_lookup traffic_stats_max_entries (traffic_stats st) c' direction'.
Proof.
  intros Hd Hne. unfold update_traffic_counter. rewrite (u32_small _ Hd).
  destruct (percpu_array_lookup _ _ (cpu e) direction) as [counter|];
    [|reflexivity].
  simpl. destruct (decide (c' = cpu e)) as [-> | Hc].
  - apply percpu_lookup_store_other_key. destruct Hne; congruence.
  - apply percpu_lookup_store_other_cpu. congruence.
Qed.

Example uplink_then_downlink :
  traffic_stats (run [Encap_recv env0 0 (pkt 100); Dev_xmit env1 (pkt 60) 0]
                     (initial_maps 2))
  = [[traffic_counter.mk 1 100 1000; traffic_counter.mk 1 60 2000];
     [traffic_counter.zero; traffic_counter.zero]].
Proof. reflexivity. Qed.

Example teid_counter_twice :
  teid_stats (update_teid_counter env1 7 60
                (update_teid_counter env0 7 100 (initial_maps 1))) !! 7
  = Some (traffic_counter.mk 2 160 2000).
Proof. reflexivity. Qed.

Lemma counted_intro (len : N) (c : traffic_counter.t) (now : N) :
  counted len c
    (traffic_counter.mk (u64 (traffic_counter.packets c + 1))
                        (u64 (traffic_counter.bytes c + len)) now).
Proof.
  unfold counted. simpl. repeat split; try reflexivity; apply u64_small.
Qed.

(** ** Direction counters *)

(** C1, as stated, fails when a 64-bit field is at its largest value: on
    [saturated_maps] the uplink packet count goes from 2^64 - 1 to 0 when a
    packet of 100 bytes is received, it does not increase by 1. *)
Lemma uplink_counter_wraps :
  exists c c',
    direction_counter saturated_maps 0 DIRECTION_UPLINK = Some c
    /\ direction_counter
         (snd (kprobe_gtp5g_encap_recv env0 0 (pkt 100) saturated_maps))
         0 DIRECTION_UPLINK = Some c'
    /\ traffic_counter.packets c = 2 ^ 64 - 1
    /\ traffic_counter.packets c' = 0
    /\ traffic_counter.packets c' <> traffic_counter.packets c + 1.
Proof.
  eexists; eexists.
  split; [vm_compute; reflexivity|].
  split; [vm_compute; reflexivity|].
  simpl. repeat split; discriminate.
Qed.

(** C1 (amended).  When the uplink entry hook runs with a non-null packet of
    length L on a CPU that has its two-slot copy of [traffic_stats], that
    CPU's direction-0 counter gets packets = (packets + 1) mod 2^64 and
    bytes = (bytes + L) mod 2^64, which is exactly one packet and exactly L
    bytes more whenever the 64-bit field does not overflow; the downlink
    hook does the same to the direction-1 counter. *)
Theorem direction_counter_counts_packet (e : env) (sk dev : N) (s : sk_buff.t)
    (st : maps) :
  traffic_stats_wf st ->
  (cpu e < length (traffic_stats st))%nat ->
  sk_buff.len s < 2 ^ 32 ->
  (exists c c',
      direction_counter st (cpu e) DIRECTION_UPLINK = Some c
      /\ direction_counter (snd (kprobe_gtp5g_encap_recv e sk (Some s) st))
           (cpu e) DIRECTION_UPLINK = Some c'
      /\ counted (sk_buff.len s) c c')
  /\ (exists c c',
      direction_counter st (cpu e) DIRECTION_DOWNLINK = Some c
      /\ direction_counter (snd (kprobe_gtp5g_dev_xmit e (Some s) dev st))
           (cpu e) DIRECTION_DOWNLINK = Some c'
      /\ counted (sk_buff.len s) c c').
Proof.
  intros Hwf Hcpu Hlen. unfold direction_counter.
  split.
  - destruct (traffic_stats_slot st (cpu e) DIRECTION_UPLINK Hwf Hcpu) as [c Hc];
      [reflexivity|].
    exists c. eexists. split; [exact Hc|]. simpl. rewrite (u32_small _ Hlen).
    split; [|apply counted_intro].
    apply update_traffic_counter_slot; [reflexivity|assumption|exact Hc].
  - destruct (traffic_stats_slot st (cpu e) DIRECTION_DOWNLINK Hwf Hcpu) as [c Hc];
      [reflexivity|].
    exists c. eexists. split; [exact Hc|]. simpl. rewrite (u32_small _ Hlen).
    split; [|apply counted_intro].
    apply update_traffic_counter_slot; [reflexivity|assumption|exact Hc].
Qed.

Lemma direction_counter_counts_packet_witness :
  (exists c c',
      direction_counter tracing_maps 0 DIRECTION_UPLINK = Some c
      /\ direction_counter
           (snd (kprobe_gtp5g_encap_recv env0 0 (Some (sk_buff.mk 100)) tracing_maps))
           0 DIRECTION_UPLINK = Some c'
      /\ counted 100 c c')
  /\ (exists c c',
      direction_counter tracing_maps 0 DIRECTION_DOWNLINK = Some c
      /\ direction_counter
           (snd (kprobe_gtp5g_dev_xmit env0 (Some (sk_buff.mk 100)) 0 tracing_maps))
           0 DIRECTION_DOWNLINK = Some c'
      /\ counted 100 c c').
Proof.
  apply (direction_counter_counts_packet env0 0 0 (sk_buff.mk 100) tracing_maps).
  - repeat constructor.
  - simpl. lia.
  - reflexivity.
Defined.

(** ** TEID counters *)

Lemma update_teid_counter_hit (e : env) (teid len : N) (st : maps)
    (c : traffic_counter.t) :
  teid < 2 ^ 32 -> len < 2 ^ 32 ->
  teid_stats st !! teid = Some c ->
  teid_stats (update_teid_counter e teid len st)
  = <[teid := traffic_counter.mk
                (u64 (traffic_counter.packets c + 1))
                (u64 (traffic_counter.bytes c + len))
                (bpf_ktime_get_ns e)]> (teid_stats st).
Proof.
  intros Ht Hl Hc. unfold update_teid_counter.
  rewrite (u32_small _ Ht), (u32_small _ Hl), Hc. reflexivity.
Qed.

Lemma update_teid_counter_miss (e : env) (teid len : N) (st : maps) :
  teid < 2 ^ 32 -> len < 2 ^ 32 ->
  teid_stats st !! teid = None ->
  N.of_nat (size (teid_stats st)) < teid_stats_max_entries ->
  teid_stats (update_teid_counter e teid len st)
  = <[teid := traffic_counter.mk 1 len (bpf_ktime_get_ns e)]> (teid_stats st).
Proof.
  intros Ht Hl Hc Hsz. unfold update_teid_counter, hash_update.
  rewrite (u32_small _ Ht), (u32_small _ Hl), Hc.
  apply N.ltb_lt in Hsz. rewrite Hsz. reflexivity.
Qed.

Lemma update_teid_counter_full (e : env) (teid len : N) (st : maps) :
  teid_stats st !! u32 teid = None ->
  teid_stats_max_entries <= N.of_nat (size (teid_stats st)) ->
  teid_stats (update_teid_counter e teid len st) = teid_stats st.
Proof.
  intros Hc Hsz. unfold update_teid_counter, hash_update. rewrite Hc.
  apply N.ltb_ge in Hsz. rewrite Hsz. reflexivity.
Qed.

(** C4, as stated, fails when the table is at capacity: [full_teid_maps]
    holds the 4096 TEIDs 0 .. 4095, TEID 4096 is not among them, and after
    the update for TEID 4096 there is still no entry for it. *)
Lemma teid_counter_full_table_no_entry :
  size (teid_stats full_teid_maps) = 4096%nat
  /\ teid_stats full_teid_maps !! 4096 = None
  /\ teid_stats (update_teid_counter env0 4096 100 full_teid_maps) !! 4096 = None.
Proof. vm_compute. repeat split. Qed.

(** C4 (amended).  When the TEID-counter update is called with a TEID that
    is not in the table, a length L, and the table holds fewer than 4096
    entries, it creates the entry packets = 1, bytes = L; called again with
    the same TEID and L2 the entry becomes packets = 2, bytes = L + L2, and no
    other entry changes.  On every later call an existing entry is updated in
    place: packets + 1 and bytes + L in 64-bit arithmetic. *)
Theorem teid_counter_first_then_second (e1 e2 : env) (teid L L2 : N) (st : maps) :
  teid < 2 ^ 32 -> L < 2 ^ 32 -> L2 < 2 ^ 32 ->
  teid_stats st !! teid = None ->
  N.of_nat (size (teid_stats st)) < teid_stats_max_entries ->
  let st1 := update_teid_counter e1 teid L st in
  let st2 := update_teid_counter e2 teid L2 st1 in
  teid_stats st1 !! teid = Some (traffic_counter.mk 1 L (bpf_ktime_get_ns e1))
  /\ teid_stats st2 !! teid
     = Some (traffic_counter.mk 2 (L + L2) (bpf_ktime_get_ns e2))
  /\ (forall k, k <> teid -> teid_stats st2 !! k = teid_stats st !! k)
  /\ (forall e3 L3 st3 c,
        L3 < 2 ^ 32 -> teid_stats st3 !! teid = Some c ->
        teid_stats (update_teid_counter e3 teid L3 st3)
        = <[teid := traffic_counter.mk
                      (u64 (traffic_counter.packets c + 1))
                      (u64 (traffic_counter.bytes c + L3))
                      (bpf_ktime_get_ns e3)]> (teid_stats st3)).
Proof.
  intros Ht HL HL2 Hnone Hsz st1 st2.
  assert (H1 : teid_stats st1 !! teid
               = Some (traffic_counter.mk 1 L (bpf_ktime_get_ns e1))).
  { subst st1. rewrite update_teid_counter_miss by assumption.
    apply lookup_insert_eq. }
  assert (H2 : teid_stats st2
               = <[teid := traffic_counter.mk 2 (L + L2) (bpf_ktime_get_ns e2)]>
                   (teid_stats st1)).
  { subst st2. rewrite (update_teid_counter_hit _ _ _ _ _ Ht HL2 H1). simpl.
    f_equal. f_equal.
    apply u64_small. change (2 ^ 32) with 4294967296 in *.
    change (2 ^ 64) with 18446744073709551616. lia. }
  split; [exact H1|].
  split; [rewrite H2; apply lookup_insert_eq|].
  split.
  - intros k Hk. rewrite H2, lookup_insert_ne by congruence.
    subst st1. rewrite update_teid_counter_miss by assumption.
    apply lookup_insert_ne. congruence.
  - intros e3 L3 st3 c HL3 Hc. now apply update_teid_counter_hit.
Qed.

Lemma teid_counter_first_then_second_witness :
  let st1 := update_teid_counter env0 7 100 (initial_maps 1) in
  let st2 := update_teid_counter env1 7 60 st1 in
  teid_stats st1 !! 7 = Some (traffic_counter.mk 1 100 (bpf_ktime_get_ns env0))
  /\ teid_stats st2 !! 7
     = Some (traffic_counter.mk 2 (100 + 60) (bpf_ktime_get_ns env1))
  /\ (forall k, k <> 7 -> teid_stats st2 !! k = teid_stats (initial_maps 1) !! k)
  /\ (forall e3 L3 st3 c,
        L3 < 2 ^ 32 -> teid_stats st3 !! 7 = Some c ->
        teid_stats (update_teid_counter e3 7 L3 st3)
        = <[7 := traffic_counter.mk
                   (u64 (traffic_counter.packets c + 1))
                   (u64 (traffic_counter.bytes c + L3))
                   (bpf_ktime_get_ns e3)]> (teid_stats st3)).
Proof.
  apply (teid_counter_first_then_second env0 env1 7 100 60 (initial_maps 1));
    reflexivity.
Defined.

(** ** The emitters *)

Lemma emit_drop_event_no_room (e : env) (teid src_ip dst_ip pkt_len reason direction : N)
    (st : maps) :
  drop_channel_has_room st = false ->
  emit_drop_event e teid src_ip dst_ip pkt_len reason direction st = st.
Proof.
  unfold drop_channel_has_room, emit_drop_event, bpf_ringbuf_reserve.
  intros H. now rewrite H.
Qed.

Lemma emit_drop_event_room (e : env) (teid src_ip dst_ip pkt_len reason direction : N)
    (st : maps) :
  drop_channel_has_room st = true ->
  emit_drop_event e teid src_ip dst_ip pkt_len reason direction st
  = set_drop_events
      (drop_events st ++
       [drop_event.mk (bpf_ktime_get_ns e) (u32 teid) (u32 src_ip) (u32 dst_ip)
          0 0 (u32 pkt_len) (u8 reason) (u8 direction)
          (drop_event.pad (drop_slot e))]) st.
Proof.
  unfold drop_channel_has_room, emit_drop_event, bpf_ringbuf_reserve.
  intros H. now rewrite H.
Qed.

Lemma emit_packet_event_off (e : env) (teid src_ip dst_ip pkt_len direction qfi : N)
    (st : maps) :
  flag_off st 0 ->
  emit_packet_event e teid src_ip dst_ip pkt_len direction qfi st = st.
Proof.
  unfold flag_off, emit_packet_event. intros [H | H]; now rewrite H.
Qed.

Lemma emit_packet_event_no_room (e : env) (teid src_ip dst_ip pkt_len direction qfi : N)
    (st : maps) :
  packet_channel_has_room st = false ->
  emit_packet_event e teid src_ip dst_ip pkt_len direction qfi st = st.
Proof.
  unfold packet_channel_has_room, emit_packet_event, bpf_ringbuf_reserve.
  intros H. rewrite H.
  destruct (array_lookup _ _ _) as [enabled|]; [|reflexivity].
  now destruct (enabled =? 0).
Qed.

Lemma reservation_fails_drop (e : env) (st : maps) :
  reservation Drop_channel e st = None -> drop_channel_has_room st = false.
Proof.
  unfold reservation, bpf_ringbuf_reserve, drop_channel_has_room.
  now destruct (ringbuf_has_room _ _ _).
Qed.

Lemma reservation_fails_packet (e : env) (st : maps) :
  reservation Packet_channel e st = None -> packet_channel_has_room st = false.
Proof.
  unfold reservation, bpf_ringbuf_reserve, packet_channel_has_room.
  now destruct (ringbuf_has_room _ _ _).
Qed.

(** ** The packet-free tracepoint, path by path *)

Lemma tracepoint_kfree_skb_off (e : env) (ctx : trace_event_raw_kfree_skb.t)
    (st : maps) :
  flag_off st 1 -> tracepoint_kfree_skb e ctx st = (0%Z, st).
Proof.
  unfold flag_off, tracepoint_kfree_skb. intros [H | H]; now rewrite H.
Qed.

Lemma tracepoint_kfree_skb_null (e : env) (ctx : trace_event_raw_kfree_skb.t)
    (st : maps) :
  trace_event_raw_kfree_skb.skbaddr ctx = None ->
  tracepoint_kfree_skb e ctx st = (0%Z, st).
Proof.
  unfold tracepoint_kfree_skb. intros H. rewrite H.
  destruct (array_lookup _ _ _) as [enabled|]; [|reflexivity].
  now destruct (enabled =? 0).
Qed.

Lemma tracepoint_kfree_skb_short (e : env) (ctx : trace_event_raw_kfree_skb.t)
    (s : sk_buff.t) (st : maps) :
  trace_event_raw_kfree_skb.skbaddr ctx = Some s ->
  u32 (sk_buff.len s) < 20 ->
  tracepoint_kfree_skb e ctx st = (0%Z, st).
Proof.
  unfold tracepoint_kfree_skb. intros H Hlen. rewrite H.
  apply N.ltb_lt in Hlen. rewrite Hlen.
  destruct (array_lookup _ _ _) as [enabled|]; [|reflexivity].
  now destruct (enabled =? 0).
Qed.

Lemma tracepoint_kfree_skb_emit (e : env) (ctx : trace_event_raw_kfree_skb.t)
    (s : sk_buff.t) (enabled : N) (st : maps) :
  array_lookup agent_config_max_entries (agent_config st) 1 = Some enabled ->
  enabled <> 0 ->
  trace_event_raw_kfree_skb.skbaddr ctx = Some s ->
  20 <= u32 (sk_buff.len s) ->
  tracepoint_kfree_skb e ctx st
  = (0%Z, emit_drop_event e 0 0 0 (u32 (sk_buff.len s)) DROP_REASON_KERNEL 0 st).
Proof.
  unfold tracepoint_kfree_skb. intros Hcfg Hen H Hlen. rewrite Hcfg, H.
  apply N.eqb_neq in Hen. rewrite Hen.
  apply N.ltb_ge in Hlen. now rewrite Hlen.
Qed.

Lemma tracepoint_kfree_skb_no_room (e : env) (ctx : trace_event_raw_kfree_skb.t)
    (st : maps) :
  drop_channel_has_room st = false ->
  tracepoint_kfree_skb e ctx st = (0%Z, st).
Proof.
  intros Hfull. unfold tracepoint_kfree_skb.
  destruct (array_lookup _ _ _) as [enabled|]; [|reflexivity].
  destruct (enabled =? 0); [reflexivity|].
  destruct (trace_event_raw_kfree_skb.skbaddr ctx) as [s|]; [|reflexivity].
  destruct (u32 (sk_buff.len s) <? 20); [reflexivity|].
  now rewrite emit_drop_event_no_room.
Qed.

Example kfree_skb_length_19 :
  tracepoint_kfree_skb env0 (trace_event_raw_kfree_skb.mk (pkt 19) 0) tracing_maps
  = (0%Z, tracing_maps).
Proof. reflexivity. Qed.

Example kfree_skb_length_20 :
  drop_events
    (snd (tracepoint_kfree_skb env0 (trace_event_raw_kfree_skb.mk (pkt 20) 0)
            tracing_maps))
  = [drop_event.mk 1000 0 0 0 0 0 20 DROP_REASON_KERNEL 0 [0xAA; 0xBB]].
Proof. reflexivity. Qed.

(** C2.  When the drop-detection hook runs with drop tracing enabled (config
    key 1 present and non-zero) and a non-null freed packet: a packet shorter
    than 20 bytes publishes no DropEvent; a packet of 20 bytes or more, when
    the drop-event channel has room for a record, publishes exactly one
    DropEvent, with reason = kernel-internal, direction = 0, teid = 0 and both
    addresses = 0. *)
Theorem kfree_skb_enabled_publishes (e : env) (ctx : trace_event_raw_kfree_skb.t)
    (s : sk_buff.t) (enabled : N) (st : maps) :
  array_lookup agent_config_max_entries (agent_config st) 1 = Some enabled ->
  enabled <> 0 ->
  trace_event_raw_kfree_skb.skbaddr ctx = Some s ->
  sk_buff.len s < 2 ^ 32 ->
  let st' := snd (tracepoint_kfree_skb e ctx st) in
  (sk_buff.len s < 20 -> drop_events st' = drop_events st)
  /\ (20 <= sk_buff.len s ->
      drop_channel_has_room st = true ->
      exists ev,
        drop_events st' = drop_events st ++ [ev]
        /\ drop_event.reason ev = DROP_REASON_KERNEL
        /\ drop_event.direction ev = 0
        /\ drop_event.teid ev = 0
        /\ drop_event.src_ip ev = 0
        /\ drop_event.dst_ip ev = 0
        /\ drop_event.pkt_len ev = sk_buff.len s).
Proof.
  intros Hcfg Hen Hskb Hrange st'. subst st'.
  pose proof (u32_small _ Hrange) as Hlen.
  split.
  - intros Hshort.
    rewrite (tracepoint_kfree_skb_short e ctx s st Hskb); [reflexivity|].
    now rewrite Hlen.
  - intros Hlong Hroom.
    rewrite (tracepoint_kfree_skb_emit e ctx s enabled st Hcfg Hen Hskb);
      [|now rewrite Hlen].
    simpl. rewrite (emit_drop_event_room _ _ _ _ _ _ _ _ Hroom). simpl.
    eexists. split; [reflexivity|]. simpl.
    rewrite Hlen. repeat split; apply u32_small; assumption.
Qed.

Lemma kfree_skb_enabled_publishes_witness :
  let st' := snd (tracepoint_kfree_skb env0
                    (trace_event_raw_kfree_skb.mk (pkt 20) 0) tracing_maps) in
  (20 < 20 -> drop_events st' = drop_events tracing_maps)
  /\ (20 <= 20 ->
      drop_channel_has_room tracing_maps = true ->
      exists ev,
        drop_events st' = drop_events tracing_maps ++ [ev]
        /\ drop_event.reason ev = DROP_REASON_KERNEL
        /\ drop_event.direction ev = 0
        /\ drop_event.teid ev = 0
        /\ drop_event.src_ip ev = 0
        /\ drop_event.dst_ip ev = 0
        /\ drop_event.pkt_len ev = 20).
Proof.
  apply (kfree_skb_enabled_publishes env0
           (trace_event_raw_kfree_skb.mk (pkt 20) 0) (sk_buff.mk 20) 1 tracing_maps).
  - reflexivity.
  - discriminate.
  - reflexivity.
  - reflexivity.
Defined.

(** C3.  When the drop-detection hook runs with drop tracing disabled (config
    key 1 absent from the table, or equal to 0) it returns at once: no
    DropEvent is published and no map changes, whatever the freed packet, a
    null handle included. *)
Theorem kfree_skb_disabled_returns (e : env) (ctx : trace_event_raw_kfree_skb.t)
    (st : maps) :
  flag_off st 1 ->
  tracepoint_kfree_skb e ctx st = (0%Z, st)
  /\ drop_events (snd (tracepoint_kfree_skb e ctx st)) = drop_events st.
Proof.
  intros Hoff. rewrite (tracepoint_kfree_skb_off e ctx st Hoff). now split.
Qed.

Lemma kfree_skb_disabled_returns_witness :
  tracepoint_kfree_skb env0 (trace_event_raw_kfree_skb.mk (pkt 1500) 0)
    (initial_maps 1)
  = (0%Z, initial_maps 1)
  /\ drop_events
       (snd (tracepoint_kfree_skb env0 (trace_event_raw_kfree_skb.mk (pkt 1500) 0)
               (initial_maps 1)))
     = drop_events (initial_maps 1).
Proof.
  apply (kfree_skb_disabled_returns env0
           (trace_event_raw_kfree_skb.mk (pkt 1500) 0) (initial_maps 1)).
  right. reflexivity.
Defined.

(** C5.  An absent config entry and a zero-valued one both mean "disabled":
    with config key 0 absent or 0 the packet-event emitter publishes nothing,
    whatever its arguments, and with config key 1 absent or 0 the drop hook
    does none of its gated work; under an empty config table both are off. *)
Theorem gated_features_default_off (e : env)
    (teid src_ip dst_ip pkt_len direction qfi : N)
    (ctx : trace_event_raw_kfree_skb.t) (st : maps) :
  (flag_off st 0 ->
     emit_packet_event e teid src_ip dst_ip pkt_len direction qfi st = st)
  /\ (flag_off st 1 -> tracepoint_kfree_skb e ctx st = (0%Z, st))
  /\ (agent_config st = [] ->
      emit_packet_event e teid src_ip dst_ip pkt_len direction qfi st = st
      /\ tracepoint_kfree_skb e ctx st = (0%Z, st)).
Proof.
  split; [apply emit_packet_event_off|].
  split; [apply tracepoint_kfree_skb_off|].
  intros Hempty.
  split.
  - apply emit_packet_event_off. left. rewrite Hempty. apply array_lookup_nil.
  - apply tracepoint_kfree_skb_off. left. rewrite Hempty. apply array_lookup_nil.
Qed.

Lemma gated_features_default_off_witness :
  emit_packet_event env0 5 1 2 64 0 9 (initial_maps 1) = initial_maps 1
  /\ tracepoint_kfree_skb env0 (trace_event_raw_kfree_skb.mk (pkt 64) 0)
       (initial_maps 1)
     = (0%Z, initial_maps 1)
  /\ emit_packet_event env0 5 1 2 64 0 9 empty_config_maps = empty_config_maps
  /\ tracepoint_kfree_skb env0 (trace_event_raw_kfree_skb.mk (pkt 64) 0)
       empty_config_maps
     = (0%Z, empty_config_maps).
Proof.
  destruct (gated_features_default_off env0 5 1 2 64 0 9
              (trace_event_raw_kfree_skb.mk (pkt 64) 0) (initial_maps 1))
    as [Hzero0 [Hzero1 _]].
  destruct (gated_features_default_off env0 5 1 2 64 0 9
              (trace_event_raw_kfree_skb.mk (pkt 64) 0) empty_config_maps)
    as [_ [_ Hempty]].
  split; [apply Hzero0; right; reflexivity|].
  split; [apply Hzero1; right; reflexivity|].
  apply Hempty. reflexivity.
Defined.

(** C6.  For a publish attempt on either event channel: if reserving space
    for the record fails, the emitter gives up at once, leaving every map as
    it was, so the records already committed to both channels are intact; the
    drop hook, which is the emitter's caller, still returns 0. *)
Theorem failed_reservation_abandons_publish (ch : channel) (e : env)
    (a1 a2 a3 a4 a5 a6 : N) (ctx : trace_event_raw_kfree_skb.t) (st : maps) :
  reservation ch e st = None ->
  publish ch e a1 a2 a3 a4 a5 a6 st = st
  /\ drop_events (publish ch e a1 a2 a3 a4 a5 a6 st) = drop_events st
  /\ packet_events (publish ch e a1 a2 a3 a4 a5 a6 st) = packet_events st
  /\ (ch = Drop_channel -> tracepoint_kfree_skb e ctx st = (0%Z, st)).
Proof.
  intros Hfail.
  assert (Hsame : publish ch e a1 a2 a3 a4 a5 a6 st = st).
  { destruct ch; simpl.
    - apply emit_drop_event_no_room. now apply reservation_fails_drop with e.
    - apply emit_packet_event_no_room. now apply reservation_fails_packet with e. }
  rewrite Hsame. repeat split.
  intros ->. apply tracepoint_kfree_skb_no_room.
  now apply reservation_fails_drop with e.
Qed.

Lemma failed_reservation_abandons_publish_witness :
  publish Drop_channel env0 0 0 0 64 3 0 saturated_channels = saturated_channels
  /\ drop_events (publish Drop_channel env0 0 0 0 64 3 0 saturated_channels)
     = drop_events saturated_channels
  /\ packet_events (publish Drop_channel env0 0 0 0 64 3 0 saturated_channels)
     = packet_events saturated_channels
  /\ (Drop_channel = Drop_channel ->
      tracepoint_kfree_skb env0 (trace_event_raw_kfree_skb.mk (pkt 64) 0)
        saturated_channels
      = (0%Z, saturated_channels)).
Proof.
  apply (failed_reservation_abandons_publish Drop_channel env0 0 0 0 64 3 0
           (trace_event_raw_kfree_skb.mk (pkt 64) 0) saturated_channels).
  vm_compute. reflexivity.
Defined.

Example packet_channel_saturated :
  reservation Packet_channel env0 saturated_channels = None
  /\ publish Packet_channel env0 5 1 2 64 0 9 saturated_channels = saturated_channels.
Proof.
  split; [vm_compute; reflexivity|].
  apply emit_packet_event_no_room. vm_compute. reflexivity.
Qed.

(** C7.  Each of the three hooks returns 0 on every path.  With a null
    packet handle a hook changes no map; on the drop hook's other failure
    paths (feature disabled, packet below the 20-byte floor, drop-event
    channel without room) it changes no map either. *)
Theorem hooks_always_return_zero (i : invocation) (e : env) (sk dev : N)
    (ctx : trace_event_raw_kfree_skb.t) (st : maps) :
  fst (invoke i st) = 0%Z
  /\ kprobe_gtp5g_encap_recv e sk None st = (0%Z, st)
  /\ kprobe_gtp5g_dev_xmit e None dev st = (0%Z, st)
  /\ (trace_event_raw_kfree_skb.skbaddr ctx = None ->
      tracepoint_kfree_skb e ctx st = (0%Z, st))
  /\ (flag_off st 1 -> tracepoint_kfree_skb e ctx st = (0%Z, st))
  /\ (forall s, trace_event_raw_kfree_skb.skbaddr ctx = Some s ->
                sk_buff.len s < 20 ->
                tracepoint_kfree_skb e ctx st = (0%Z, st))
  /\ (drop_channel_has_room st = false ->
      tracepoint_kfree_skb e ctx st = (0%Z, st)).
Proof.
  split.
  { destruct i as [e' sk' skb | e' skb dev' | e' ctx']; simpl.
    - now destruct skb.
    - now destruct skb.
    - unfold tracepoint_kfree_skb.
      destruct (array_lookup _ _ _) as [enabled|]; [|reflexivity].
      destruct (enabled =? 0); [reflexivity|].
      destruct (trace_event_raw_kfree_skb.skbaddr ctx') as [s|]; [|reflexivity].
      now destruct (u32 (sk_buff.len s) <? 20). }
  split; [reflexivity|].
  split; [reflexivity|].
  split; [apply tracepoint_kfree_skb_null|].
  split; [apply tracepoint_kfree_skb_off|].
  split; [|apply tracepoint_kfree_skb_no_room].
  intros s Hs Hlen. apply (tracepoint_kfree_skb_short e ctx s st Hs).
  rewrite u32_small; [assumption|].
  eapply N.lt_trans; [exact Hlen|reflexivity].
Qed.

Lemma hooks_always_return_zero_witness :
  fst (invoke (Encap_recv env0 0 (pkt 100)) tracing_maps) = 0%Z
  /\ tracepoint_kfree_skb env0 (trace_event_raw_kfree_skb.mk None 0) tracing_maps
     = (0%Z, tracing_maps)
  /\ tracepoint_kfree_skb env0 (trace_event_raw_kfree_skb.mk (pkt 19) 0) tracing_maps
     = (0%Z, tracing_maps)
  /\ tracepoint_kfree_skb env0 (trace_event_raw_kfree_skb.mk (pkt 64) 0)
       (initial_maps 1)
     = (0%Z, initial_maps 1)
  /\ tracepoint_kfree_skb env0 (trace_event_raw_kfree_skb.mk (pkt 64) 0)
       saturated_channels
     = (0%Z, saturated_channels).
Proof.
  split.
  { apply (hooks_always_return_zero (Encap_recv env0 0 (pkt 100)) env0 0 0
             (trace_event_raw_kfree_skb.mk None 0) tracing_maps). }
  split.
  { destruct (hooks_always_return_zero (Encap_recv env0 0 (pkt 100)) env0 0 0
                (trace_event_raw_kfree_skb.mk None 0) tracing_maps)
      as (_ & _ & _ & Hnull & _).
    apply Hnull. reflexivity. }
  split.
  { destruct (hooks_always_return_zero (Encap_recv env0 0 (pkt 100)) env0 0 0
                (trace_event_raw_kfree_skb.mk (pkt 19) 0) tracing_maps)
      as (_ & _ & _ & _ & _ & Hshort & _).
    apply (Hshort (sk_buff.mk 19)); reflexivity. }
  split.
  { destruct (hooks_always_return_zero (Encap_recv env0 0 (pkt 100)) env0 0 0
                (trace_event_raw_kfree_skb.mk (pkt 64) 0) (initial_maps 1))
      as (_ & _ & _ & _ & Hoff & _).
    apply Hoff. right. reflexivity. }
  destruct (hooks_always_return_zero (Encap_recv env0 0 (pkt 100)) env0 0 0
              (trace_event_raw_kfree_skb.mk (pkt 64) 0) saturated_channels)
    as (_ & _ & _ & _ & _ & _ & Hfull).
  apply Hfull. vm_compute. reflexivity.
Defined.

(** ** Record formats *)

(** C8, as stated, fails: [struct drop_event] takes 32 bytes, not 40 (its
    field widths 8+4+4+4+2+2+4+1+1+2 add up to 32), and a record of
    [struct packet_event] takes 32 bytes, not 28 (the fields end at byte 28
    and the 8-byte alignment of the struct adds 4 bytes at the end). *)
Lemma event_record_sizes_differ :
  sizeof_struct drop_event_decl = 32
  /\ sum_widths drop_event_decl = 32
  /\ sizeof_struct drop_event_decl <> 40
  /\ sizeof_struct packet_event_decl = 32
  /\ sizeof_struct packet_event_decl <> 28.
Proof. vm_compute. repeat split; discriminate. Qed.

(** C8 (amended).  A DropEvent record takes exactly 32 bytes
    (8+4+4+4+2+2+4+1+1+2 padding) and a PacketEvent record exactly 32 bytes
    (8+4+4+4+4+1+1+2 padding = 28 bytes of fields, then 4 bytes of alignment
    padding at the end); in both, every field lies at the offset given by the
    widths of the fields before it, so a consumer can decode by fixed
    offset, and these sizes are the ones the emitters reserve. *)
Theorem event_record_layout :
  sizeof_struct drop_event_decl = 32
  /\ sum_widths drop_event_decl = 32
  /\ field_offsets drop_event_decl = packed_offsets drop_event_decl
  /\ field_offsets drop_event_decl
     = [("timestamp", 0); ("teid", 8); ("src_ip", 12); ("dst_ip", 16);
        ("src_port", 20); ("dst_port", 22); ("pkt_len", 24);
        ("reason", 28); ("direction", 29); ("pad", 30)]%string
  /\ sizeof_struct packet_event_decl = 32
  /\ sum_widths packet_event_decl = 28
  /\ fields_end packet_event_decl = 28
  /\ field_offsets packet_event_decl = packed_offsets packet_event_decl
  /\ field_offsets packet_event_decl
     = [("timestamp", 0); ("teid", 8); ("src_ip", 12); ("dst_ip", 16);
        ("pkt_len", 20); ("direction", 24); ("qfi", 25); ("pad", 26)]%string.
Proof. vm_compute. repeat split. Qed.

(** ** What the hooks leave alone *)

Lemma update_traffic_counter_frame (e : env) (direction len : N) (st : maps) :
  let st' := update_traffic_counter e direction len st in
  drop_events st' = drop_events st
  /\ packet_events st' = packet_events st
  /\ teid_session_map st' = teid_session_map st
  /\ teid_stats st' = teid_stats st
  /\ agent_config st' = agent_config st.
Proof.
  unfold update_traffic_counter.
  destruct (percpu_array_lookup _ _ _ _); simpl; repeat split.
Qed.

Lemma emit_drop_event_frame (e : env) (teid src_ip dst_ip pkt_len reason direction : N)
    (st : maps) :
  let st' := emit_drop_event e teid src_ip dst_ip pkt_len reason direction st in
  traffic_stats st' = traffic_stats st
  /\ packet_events st' = packet_events st
  /\ teid_session_map st' = teid_session_map st
  /\ teid_stats st' = teid_stats st
  /\ agent_config st' = agent_config st.
Proof.
  unfold emit_drop_event.
  destruct (bpf_ringbuf_reserve _ _ _ _); simpl; repeat split.
Qed.

Lemma invoke_frame (i : invocation) (st : maps) :
  teid_stats (snd (invoke i st)) = teid_stats st
  /\ packet_events (snd (invoke i st)) = packet_events st.
Proof.
  destruct i as [e sk skb | e skb dev | e ctx]; simpl.
  - destruct skb as [s|]; simpl; [|now split].
    split; apply update_traffic_counter_frame.
  - destruct skb as [s|]; simpl; [|now split].
    split; apply update_traffic_counter_frame.
  - unfold tracepoint_kfree_skb.
    destruct (array_lookup _ _ _) as [enabled|]; [|now split].
    destruct (enabled =? 0); [now split|].
    destruct (trace_event_raw_kfree_skb.skbaddr ctx) as [s|]; [|now split].
    destruct (u32 (sk_buff.len s) <? 20); [now split|].
    simpl. split; apply emit_drop_event_frame.
Qed.

Lemma run_frame (tr : list invocation) (st : maps) :
  teid_stats (run tr st) = teid_stats st
  /\ packet_events (run tr st) = packet_events st.
Proof.
  revert st. induction tr as [|i rest IH]; intros st; simpl; [now split|].
  destruct (IH (snd (invoke i st))) as [Ht Hp].
  destruct (invoke_frame i st) as [Ht' Hp'].
  split; congruence.
Qed.

(** C9.  No invocation of any of the three hooks changes the TEID-counter
    table or publishes to the packet-event channel; so over any run of the
    hooks, whatever the traffic and the configuration, a TEID-counter table
    and a packet-event channel that start empty stay empty. *)
Theorem hooks_leave_teid_stats_and_packet_events (i : invocation)
    (tr : list invocation) (st : maps) :
  teid_stats (snd (invoke i st)) = teid_stats st
  /\ packet_events (snd (invoke i st)) = packet_events st
  /\ teid_stats (run tr st) = teid_stats st
  /\ packet_events (run tr st) = packet_events st
  /\ (teid_stats st = ∅ -> packet_events st = [] ->
      teid_stats (run tr st) = ∅ /\ packet_events (run tr st) = []).
Proof.
  destruct (invoke_frame i st) as [Ht Hp].
  destruct (run_frame tr st) as [Ht' Hp'].
  repeat split; try assumption; congruence.
Qed.

Lemma hooks_leave_teid_stats_and_packet_events_witness :
  teid_stats (run sample_run tracing_maps) = ∅
  /\ packet_events (run sample_run tracing_maps) = [].
Proof.
  destruct (hooks_leave_teid_stats_and_packet_events
              (Encap_recv env0 0 (pkt 100)) sample_run tracing_maps)
    as (_ & _ & _ & _ & Hempty).
  apply Hempty; reflexivity.
Defined.

(** ** Ports of the drop events *)

Lemma emit_drop_event_cases (e : env) (teid src_ip dst_ip pkt_len reason direction : N)
    (st : maps) :
  let st' := emit_drop_event e teid src_ip dst_ip pkt_len reason direction st in
  drop_events st' = drop_events st
  \/ exists ev, drop_events st' = drop_events st ++ [ev] /\ ports_zero ev.
Proof.
  simpl. destruct (drop_channel_has_room st) eqn:Hroom.
  - right. rewrite (emit_drop_event_room _ _ _ _ _ _ _ _ Hroom). simpl.
    eexists. split; [reflexivity|]. now split.
  - left. now rewrite (emit_drop_event_no_room _ _ _ _ _ _ _ _ Hroom).
Qed.

Lemma invoke_ports_zero (i : invocation) (st : maps) :
  Forall ports_zero (drop_events st) ->
  Forall ports_zero (drop_events (snd (invoke i st))).
Proof.
  intros Hinv. destruct i as [e sk skb | e skb dev | e ctx]; simpl.
  - destruct skb as [s|]; simpl; [|assumption].
    now rewrite (proj1 (update_traffic_counter_frame _ _ _ _)).
  - destruct skb as [s|]; simpl; [|assumption].
    now rewrite (proj1 (update_traffic_counter_frame _ _ _ _)).
  - unfold tracepoint_kfree_skb.
    destruct (array_lookup _ _ _) as [enabled|]; [|assumption].
    destruct (enabled =? 0); [assumption|].
    destruct (trace_event_raw_kfree_skb.skbaddr ctx) as [s|]; [|assumption].
    destruct (u32 (sk_buff.len s) <? 20); [assumption|]. simpl.
    destruct (emit_drop_event_cases e 0 0 0 (u32 (sk_buff.len s))
                DROP_REASON_KERNEL 0 st) as [Hsame | [ev [Hnew Hz]]].
    + now rewrite Hsame.
    + rewrite Hnew. apply Forall_app. split; [assumption|]. now constructor.
Qed.

(** C10.  Every DropEvent the drop-event emitter publishes has src_port = 0
    and dst_port = 0, whatever the arguments: when the channel has room the
    emitter appends one record, any record it appends has both ports 0, and
    so over any run of the hooks a channel whose records have zero ports
    keeps that property. *)
Theorem published_drop_event_ports_zero (e : env)
    (teid src_ip dst_ip pkt_len reason direction : N)
    (tr : list invocation) (st : maps) :
  let st' := emit_drop_event e teid src_ip dst_ip pkt_len reason direction st in
  (drop_channel_has_room st = true ->
     exists ev, drop_events st' = drop_events st ++ [ev])
  /\ (forall ev, drop_events st' = drop_events st ++ [ev] ->
                 drop_event.src_port ev = 0 /\ drop_event.dst_port ev = 0)
  /\ (Forall ports_zero (drop_events st) ->
      Forall ports_zero (drop_events (run tr st))).
Proof.
  simpl. split; [|split].
  - intros Hroom. rewrite (emit_drop_event_room _ _ _ _ _ _ _ _ Hroom). simpl.
    eexists. reflexivity.
  - intros ev Hev.
    destruct (emit_drop_event_cases e teid src_ip dst_ip pkt_len reason direction st)
      as [Hsame | [ev' [Hnew Hz]]].
    + rewrite Hsame in Hev. apply (f_equal length) in Hev.
      rewrite length_app in Hev. simpl in Hev. lia.
    + rewrite Hnew in Hev. apply app_inv_head in Hev.
      injection Hev as ->. exact Hz.
  - revert st. induction tr as [|i rest IH]; intros st Hinv; simpl; [assumption|].
    apply IH. now apply invoke_ports_zero.
Qed.

Lemma published_drop_event_ports_zero_witness :
  (exists ev,
      drop_events (emit_drop_event env0 9 1 2 64 3 1 tracing_maps)
      = drop_events tracing_maps ++ [ev]
      /\ drop_event.src_port ev = 0 /\ drop_event.dst_port ev = 0)
  /\ Forall ports_zero (drop_events (run sample_run tracing_maps)).
Proof.
  destruct (published_drop_event_ports_zero env0 9 1 2 64 3 1 sample_run tracing_maps)
    as (Hroom & Hzero & Hrun).
  split.
  - destruct (Hroom eq_refl) as [ev Hev].
    exists ev. split; [exact Hev|]. apply Hzero. exact Hev.
  - apply Hrun. constructor.
Defined.

Example sample_run_drop_events :
  drop_events (run sample_run tracing_maps)
  = [drop_event.mk 2000 0 0 0 0 0 64 DROP_REASON_KERNEL 0 [0xAA; 0xBB]].
Proof. reflexivity. Qed.

(** * Further properties of the probes *)

Lemma u32_bound (x : N) : u32 x < 2 ^ 32.
Proof. unfold u32. now apply N.mod_lt. Qed.

Lemma u64_bound (x : N) : u64 x < 2 ^ 64.
Proof. unfold u64. now apply N.mod_lt. Qed.

Lemma u64_add_l (x y : N) : u64 (u64 x + y) = u64 (x + y).
Proof. unfold u64. now rewrite N.Div0.add_mod_idemp_l. Qed.

(** ** Shape of [traffic_stats] *)

Lemma update_traffic_counter_shape (e : env) (direction len : N) (st : maps) :
  let st' := update_traffic_counter e direction len st in
  length (traffic_stats st') = length (traffic_stats st)
  /\ (traffic_stats_wf st -> traffic_stats_wf st').
Proof.
  unfold update_traffic_counter.
  destruct (percpu_array_lookup _ _ _ _) as [counter|]; simpl; [|now split].
  unfold percpu_array_store. split; [apply length_alter|].
  unfold traffic_stats_wf. simpl. intros Hwf.
  apply Forall_alter; [assumption|].
  intros row _ Hrow. now rewrite length_insert.
Qed.

Lemma tracepoint_kfree_skb_traffic_stats (e : env)
    (ctx : trace_event_raw_kfree_skb.t) (st : maps) :
  traffic_stats (snd (tracepoint_kfree_skb e ctx st)) = traffic_stats st.
Proof.
  unfold tracepoint_kfree_skb.
  destruct (array_lookup _ _ _) as [enabled|]; [|reflexivity].
  destruct (enabled =? 0); [reflexivity|].
  destruct (trace_event_raw_kfree_skb.skbaddr ctx) as [s|]; [|reflexivity].
  destruct (u32 (sk_buff.len s) <? 20); [reflexivity|].
  simpl. apply emit_drop_event_frame.
Qed.

Lemma invoke_shape (i : invocation) (st : maps) :
  length (traffic_stats (snd (invoke i st))) = length (traffic_stats st)
  /\ (traffic_stats_wf st -> traffic_stats_wf (snd (invoke i st))).
Proof.
  destruct i as [e sk skb | e skb dev | e ctx]; simpl.
  - destruct skb as [s|]; simpl; [|now split]. apply update_traffic_counter_shape.
  - destruct skb as [s|]; simpl; [|now split]. apply update_traffic_counter_shape.
  - unfold traffic_stats_wf.
    rewrite tracepoint_kfree_skb_traffic_stats. now split.
Qed.

(** X4.  The hooks never change the shape of [traffic_stats]: over any run
    the number of per-CPU copies stays the same, and if every copy had its
    two slots before the run it has them after. *)
Theorem run_keeps_traffic_stats_shape (tr : list invocation) (st : maps) :
  traffic_stats_wf st ->
  length (traffic_stats (run tr st)) = length (traffic_stats st)
  /\ traffic_stats_wf (run tr st).
Proof.
  revert st. induction tr as [|i rest IH]; intros st Hwf; simpl; [now split|].
  destruct (invoke_shape i st) as [Hlen Hwf'].
  destruct (IH _ (Hwf' Hwf)) as [Hlen' Hwf''].
  split; [congruence|assumption].
Qed.

Lemma run_keeps_traffic_stats_shape_witness :
  length (traffic_stats (run mixed_run two_cpu_maps)) = 2%nat
  /\ traffic_stats_wf (run mixed_run two_cpu_maps).
Proof.
  apply (run_keeps_traffic_stats_shape mixed_run two_cpu_maps).
  repeat constructor.
Defined.

(** ** Direction counters over whole runs *)

Lemma invoke_direction_counter (i : invocation) (st : maps) (c : nat) (d : N)
    (k : traffic_counter.t) :
  direction_counter st c d = Some k ->
  exists k',
    direction_counter (snd (invoke i st)) c d = Some k'
    /\ match observed c d i with
       | Some len =>
           traffic_counter.packets k' = u64 (traffic_counter.packets k + 1)
           /\ traffic_counter.bytes k' = u64 (traffic_counter.bytes k + len)
       | None => k' = k
       end.
Proof.
  unfold direction_counter. intros Hk.
  destruct i as [e sk [s|] | e [s|] dev | e ctx]; simpl.
  - destruct (Nat.eqb_spec (cpu e) c) as [<- | Hc]; simpl.
    + destruct (N.eqb_spec d DIRECTION_UPLINK) as [-> | Hd].
      * eexists. split.
        { apply update_traffic_counter_slot;
            [reflexivity | apply u32_bound | exact Hk]. }
        split; reflexivity.
      * exists k. split; [|reflexivity]. rewrite <- Hk.
        apply update_traffic_counter_other; [reflexivity | now right].
    + exists k. split; [|reflexivity]. rewrite <- Hk.
      apply update_traffic_counter_other; [reflexivity | left; congruence].
  - now exists k.
  - destruct (Nat.eqb_spec (cpu e) c) as [<- | Hc]; simpl.
    + destruct (N.eqb_spec d DIRECTION_DOWNLINK) as [-> | Hd].
      * eexists. split.
        { apply update_traffic_counter_slot;
            [reflexivity | apply u32_bound | exact Hk]. }
        split; reflexivity.
      * exists k. split; [|reflexivity]. rewrite <- Hk.
        apply update_traffic_counter_other; [reflexivity | now right].
    + exists k. split; [|reflexivity]. rewrite <- Hk.
      apply update_traffic_counter_other; [reflexivity | left; congruence].
  - now exists k.
  - exists k. split; [|reflexivity].
    now rewrite tracepoint_kfree_skb_traffic_stats.
Qed.

(** X3.  Over any run of the hooks, the counter of a direction on a CPU
    grows by the number of non-null packets the kprobe of that direction saw
    on that CPU, and by the sum of their lengths, both modulo 2^64 (so
    exactly, when the sums fit in 64 bits); packets seen on other CPUs, in
    the other direction, or freed, do not count. *)
Theorem run_counts_observed_packets (tr : list invocation) (st : maps)
    (c : nat) (d : N) (k : traffic_counter.t) :
  direction_counter st c d = Some k ->
  counter_in_range k ->
  exists k',
    direction_counter (run tr st) c d = Some k'
    /\ traffic_counter.packets k'
       = u64 (traffic_counter.packets k + observed_packets c d tr)
    /\ traffic_counter.bytes k'
       = u64 (traffic_counter.bytes k + observed_bytes c d tr)
    /\ (traffic_counter.packets k + observed_packets c d tr < 2 ^ 64 ->
        traffic_counter.packets k'
        = traffic_counter.packets k + observed_packets c d tr)
    /\ (traffic_counter.bytes k + observed_bytes c d tr < 2 ^ 64 ->
        traffic_counter.bytes k'
        = traffic_counter.bytes k + observed_bytes c d tr).
Proof.
  intros Hk Hrange.
  cut (exists k',
          direction_counter (run tr st) c d = Some k'
          /\ traffic_counter.packets k'
             = u64 (traffic_counter.packets k + observed_packets c d tr)
          /\ traffic_counter.bytes k'
             = u64 (traffic_counter.bytes k + observed_bytes c d tr)).
  { intros (k' & Hk' & Hp & Hb). exists k'.
    repeat split; try assumption.
    - intros Hfit. now rewrite Hp, u64_small.
    - intros Hfit. now rewrite Hb, u64_small. }
  revert st k Hk Hrange. induction tr as [|i rest IH]; intros st k Hk [Hp Hb].
  - exists k. simpl. rewrite !N.add_0_r, !u64_small by assumption. now repeat split.
  - destruct (invoke_direction_counter i st c d k Hk) as (k1 & Hk1 & Hstep).
    simpl. destruct (observed c d i) as [len|].
    + destruct Hstep as [Hp1 Hb1].
      destruct (IH _ k1 Hk1) as (k' & Hk' & Hp' & Hb').
      { split; [rewrite Hp1 | rewrite Hb1]; apply u64_bound. }
      exists k'. split; [exact Hk'|].
      rewrite Hp', Hb', Hp1, Hb1, !u64_add_l, !N.add_assoc. now split.
    + subst k1.
      destruct (IH _ k Hk1 (conj Hp Hb)) as (k' & Hk' & Hp' & Hb').
      exists k'. now repeat split.
Qed.

Example mixed_run_counters :
  traffic_stats (run mixed_run two_cpu_maps)
  = [[traffic_counter.mk 7 840 2000; traffic_counter.mk 4 150 2000];
     [traffic_counter.mk 9 5500 3000; traffic_counter.zero]].
Proof. reflexivity. Qed.

Lemma run_counts_observed_packets_witness :
  exists k',
    direction_counter (run mixed_run two_cpu_maps) 0 DIRECTION_UPLINK = Some k'
    /\ traffic_counter.packets k' = u64 (5 + 2)
    /\ traffic_counter.bytes k' = u64 (700 + 140)
    /\ (5 + 2 < 2 ^ 64 -> traffic_counter.packets k' = 5 + 2)
    /\ (700 + 140 < 2 ^ 64 -> traffic_counter.bytes k' = 700 + 140).
Proof.
  apply (run_counts_observed_packets mixed_run two_cpu_maps 0 DIRECTION_UPLINK
           (traffic_counter.mk 5 700 10)).
  - reflexivity.
  - split; reflexivity.
Defined.

(** X1.  A kprobe that sees a non-null packet writes one slot only: the
    counter of its direction on the CPU it runs on, whose timestamp becomes
    the clock reading.  The counters of the other direction and of all other
    CPUs, and all other maps, are left as they were. *)
Theorem kprobes_write_one_slot (e : env) (sk dev : N) (s : sk_buff.t) (st : maps)
    (up down : traffic_counter.t) :
  direction_counter st (cpu e) DIRECTION_UPLINK = Some up ->
  direction_counter st (cpu e) DIRECTION_DOWNLINK = Some down ->
  let st_up := snd (kprobe_gtp5g_encap_recv e sk (Some s) st) in
  let st_down := snd (kprobe_gtp5g_dev_xmit e (Some s) dev st) in
  direction_counter st_up (cpu e) DIRECTION_UPLINK
  = Some (traffic_counter.mk
            (u64 (traffic_counter.packets up + 1))
            (u64 (traffic_counter.bytes up + u32 (sk_buff.len s)))
            (bpf_ktime_get_ns e))
  /\ direction_counter st_down (cpu e) DIRECTION_DOWNLINK
     = Some (traffic_counter.mk
               (u64 (traffic_counter.packets down + 1))
               (u64 (traffic_counter.bytes down + u32 (sk_buff.len s)))
               (bpf_ktime_get_ns e))
  /\ (forall c d, c <> cpu e \/ d <> DIRECTION_UPLINK ->
        direction_counter st_up c d = direction_counter st c d)
  /\ (forall c d, c <> cpu e \/ d <> DIRECTION_DOWNLINK ->
        direction_counter st_down c d = direction_counter st c d)
  /\ st_up = set_traffic_stats (traffic_stats st_up) st
  /\ st_down = set_traffic_stats (traffic_stats st_down) st.
Proof.
  intros Hup Hdown st_up st_down. subst st_up st_down.
  unfold direction_counter in *. simpl.
  split; [apply update_traffic_counter_slot;
          [reflexivity | apply u32_bound | exact Hup]|].
  split; [apply update_traffic_counter_slot;
          [reflexivity | apply u32_bound | exact Hdown]|].
  split; [intros c d Hne; now apply update_traffic_counter_other|].
  split; [intros c d Hne; now apply update_traffic_counter_other|].
  unfold update_traffic_counter, set_traffic_stats.
  change (u32 DIRECTION_UPLINK) with DIRECTION_UPLINK.
  change (u32 DIRECTION_DOWNLINK) with DIRECTION_DOWNLINK.
  rewrite Hup, Hdown. simpl. split; reflexivity.
Qed.

Lemma kprobes_write_one_slot_witness :
  direction_counter
    (snd (kprobe_gtp5g_encap_recv env_cpu1 0 (Some (sk_buff.mk 1500)) two_cpu_maps))
    1 DIRECTION_UPLINK
  = Some (traffic_counter.mk (u64 (8 + 1)) (u64 (4000 + u32 1500))
            (bpf_ktime_get_ns env_cpu1))
  /\ direction_counter
       (snd (kprobe_gtp5g_encap_recv env_cpu1 0 (Some (sk_buff.mk 1500)) two_cpu_maps))
       0 DIRECTION_UPLINK
     = direction_counter two_cpu_maps 0 DIRECTION_UPLINK.
Proof.
  destruct (kprobes_write_one_slot env_cpu1 0 0 (sk_buff.mk 1500) two_cpu_maps
              (traffic_counter.mk 8 4000 30) traffic_counter.zero
              eq_refl eq_refl)
    as (Hslot & _ & Hothers & _).
  split; [exact Hslot|].
  apply Hothers. left. discriminate.
Defined.

(** X2.  [update_traffic_counter] does nothing for a direction outside the
    two-entry table: the lookup finds no counter and every map is left as it
    was. *)
Theorem update_traffic_counter_unknown_direction (e : env) (direction len : N)
    (st : maps) :
  traffic_stats_max_entries <= u32 direction ->
  update_traffic_counter e direction len st = st.
Proof.
  intros Hd. unfold update_traffic_counter, percpu_array_lookup, array_lookup.
  apply N.ltb_ge in Hd. rewrite Hd.
  now destruct (traffic_stats st !! cpu e).
Qed.

Lemma update_traffic_counter_unknown_direction_witness :
  update_traffic_counter env0 2 100 two_cpu_maps = two_cpu_maps.
Proof.
  apply (update_traffic_counter_unknown_direction env0 2 100 two_cpu_maps).
  discriminate.
Defined.

(** ** Maps the hooks only read *)

Lemma invoke_read_only (i : invocation) (st : maps) :
  agent_config (snd (invoke i st)) = agent_config st
  /\ teid_session_map (snd (invoke i st)) = teid_session_map st.
Proof.
  destruct i as [e sk skb | e skb dev | e ctx]; simpl.
  - destruct skb as [s|]; simpl; [|now split].
    split; apply update_traffic_counter_frame.
  - destruct skb as [s|]; simpl; [|now split].
    split; apply update_traffic_counter_frame.
  - unfold tracepoint_kfree_skb.
    destruct (array_lookup _ _ _) as [enabled|]; [|now split].
    destruct (enabled =? 0); [now split|].
    destruct (trace_event_raw_kfree_skb.skbaddr ctx) as [s|]; [|now split].
    destruct (u32 (sk_buff.len s) <? 20); [now split|].
    simpl. split; apply emit_drop_event_frame.
Qed.

(** X5.  The hooks never write the configuration or the session table: over
    any run both are what they were at the start.  The two kprobes never
    publish a drop event, and the tracepoint never touches a direction
    counter. *)
Theorem hooks_only_read_config_and_sessions (tr : list invocation)
    (e : env) (sk dev : N) (skb : option sk_buff.t)
    (ctx : trace_event_raw_kfree_skb.t) (st : maps) :
  agent_config (run tr st) = agent_config st
  /\ teid_session_map (run tr st) = teid_session_map st
  /\ drop_events (snd (kprobe_gtp5g_encap_recv e sk skb st)) = drop_events st
  /\ drop_events (snd (kprobe_gtp5g_dev_xmit e skb dev st)) = drop_events st
  /\ traffic_stats (snd (tracepoint_kfree_skb e ctx st)) = traffic_stats st.
Proof.
  split; [|split].
  - revert st. induction tr as [|i rest IH]; intros st; simpl; [reflexivity|].
    rewrite IH. apply invoke_read_only.
  - revert st. induction tr as [|i rest IH]; intros st; simpl; [reflexivity|].
    rewrite IH. apply invoke_read_only.
  - split; [|split].
    + destruct skb as [s|]; simpl; [|reflexivity].
      apply update_traffic_counter_frame.
    + destruct skb as [s|]; simpl; [|reflexivity].
      apply update_traffic_counter_frame.
    + apply tracepoint_kfree_skb_traffic_stats.
Qed.

(** X6.  The direction counters cannot be switched off: what a kprobe does
    is the same under every configuration table. *)
Theorem kprobes_ignore_config (cfg : list N) (e : env) (sk dev : N)
    (skb : option sk_buff.t) (st : maps) :
  kprobe_gtp5g_encap_recv e sk skb (set_agent_config cfg st)
  = (0%Z, set_agent_config cfg (snd (kprobe_gtp5g_encap_recv e sk skb st)))
  /\ kprobe_gtp5g_dev_xmit e skb dev (set_agent_config cfg st)
     = (0%Z, set_agent_config cfg (snd (kprobe_gtp5g_dev_xmit e skb dev st))).
Proof.
  destruct skb as [s|]; simpl; [|now split].
  unfold update_traffic_counter. simpl.
  split.
  - now destruct (percpu_array_lookup _ _ _ (u32 DIRECTION_UPLINK)).
  - now destruct (percpu_array_lookup _ _ _ (u32 DIRECTION_DOWNLINK)).
Qed.

(** ** The drop-event channel over whole runs *)


Lemma packet_record_len :
  ringbuf_record_len (sizeof_struct packet_event_decl) = 40.
Proof. reflexivity. Qed.


Lemma packet_channel_room_iff (st : maps) :
  packet_channel_has_room st = true
  <-> (length (packet_events st) < packet_events_capacity)%nat.
Proof.
  unfold packet_channel_has_room, ringbuf_has_room, packet_events_capacity.
  rewrite packet_record_len.
  change (packet_events_max_entries - 1) with 524287.
  change (524287 / 40) with 13107.
  rewrite N.leb_le. lia.
Qed.

(** What the tracepoint does to the drop-event channel: nothing, or one more
    record, written from a packet of at least 20 bytes while there was room. *)
Lemma tracepoint_kfree_skb_cases (e : env) (ctx : trace_event_raw_kfree_skb.t)
    (st : maps) :
  let st' := snd (tracepoint_kfree_skb e ctx st) in
  drop_events st' = drop_events st
  \/ exists ev,
       drop_events st' = drop_events st ++ [ev]
       /\ kernel_drop ev
       /\ drop_channel_has_room st = true.
Proof.
  simpl. unfold tracepoint_kfree_skb.
  destruct (array_lookup _ _ _) as [enabled|]; [|now left].
  destruct (enabled =? 0); [now left|].
  destruct (trace_event_raw_kfree_skb.skbaddr ctx) as [s|]; [|now left].
  destruct (u32 (sk_buff.len s) <? 20) eqn:Hlen; [now left|].
  simpl. destruct (drop_channel_has_room st) eqn:Hroom.
  - right. rewrite (emit_drop_event_room _ _ _ _ _ _ _ _ Hroom). simpl.
    eexists. split; [reflexivity|]. split; [|reflexivity].
    unfold kernel_drop. simpl.
    apply N.ltb_ge in Hlen.
    rewrite (u32_small (u32 (sk_buff.len s))) by apply u32_bound.
    repeat split; try reflexivity; [exact Hlen | apply u32_bound].
  - left. now rewrite (emit_drop_event_no_room _ _ _ _ _ _ _ _ Hroom).
Qed.

Lemma invoke_drop_events_cases (i : invocation) (st : maps) :
  drop_events (snd (invoke i st)) = drop_events st
  \/ exists ev,
       drop_events (snd (invoke i st)) = drop_events st ++ [ev]
       /\ kernel_drop ev
       /\ drop_channel_has_room st = true.
Proof.
  destruct i as [e sk skb | e skb dev | e ctx]; simpl.
  - left. destruct skb as [s|]; simpl; [|reflexivity].
    apply update_traffic_counter_frame.
  - left. destruct skb as [s|]; simpl; [|reflexivity].
    apply update_traffic_counter_frame.
  - apply tracepoint_kfree_skb_cases.
Qed.

(** X7.  The drop-event channel is append-only for the hooks: over any run
    the records committed before the run are still there, unchanged and in
    the same order, at the front of the channel. *)
Theorem run_appends_to_drop_events (tr : list invocation) (st : maps) :
  drop_events st `prefix_of` drop_events (run tr st).
Proof.
  revert st. induction tr as [|i rest IH]; intros st; simpl; [reflexivity|].
  etransitivity; [|apply IH].
  destruct (invoke_drop_events_cases i st) as [Hsame | (ev & Hnew & _)].
  - now rewrite Hsame.
  - rewrite Hnew. now apply prefix_app_r.
Qed.



(** X9.  Every drop event the hooks publish is a kernel-internal one about
    a packet of at least 20 bytes: over any run, if the records in the
    channel have reason 3, direction 0, TEID 0, addresses 0, ports 0 and a
    32-bit length of 20 or more, so do the records after the run. *)
Theorem run_publishes_kernel_drops_only (tr : list invocation) (st : maps) :
  Forall kernel_drop (drop_events st) ->
  Forall kernel_drop (drop_events (run tr st)).
Proof.
  revert st. induction tr as [|i rest IH]; intros st Hinv; simpl; [assumption|].
  apply IH.
  destruct (invoke_drop_events_cases i st) as [Hsame | (ev & Hnew & Hev & _)].
  - now rewrite Hsame.
  - rewrite Hnew. apply Forall_app. split; [assumption|]. now constructor.
Qed.

Lemma run_publishes_kernel_drops_only_witness :
  Forall kernel_drop (drop_events (run mixed_run two_cpu_maps)).
Proof.
  apply (run_publishes_kernel_drops_only mixed_run two_cpu_maps).
  constructor.
Defined.

Example mixed_run_drop_events :
  drop_events (run mixed_run two_cpu_maps)
  = [drop_event.mk 2000 0 0 0 0 0 64 DROP_REASON_KERNEL 0 [0xAA; 0xBB]].
Proof. reflexivity. Qed.

(** ** The packet-event emitter *)

Lemma emit_packet_event_cases (e : env) (teid src_ip dst_ip pkt_len direction qfi : N)
    (st : maps) :
  let st' := emit_packet_event e teid src_ip dst_ip pkt_len direction qfi st in
  st' = st
  \/ (packet_channel_has_room st = true
      /\ st' = set_packet_events
                 (packet_events st ++
                  [packet_event.mk (bpf_ktime_get_ns e) (u32 teid) (u32 src_ip)
                     (u32 dst_ip) (u32 pkt_len) (u8 direction) (u8 qfi)
                     (packet_event.pad (packet_slot e))]) st).
Proof.
  simpl. unfold emit_packet_event, bpf_ringbuf_reserve, packet_channel_has_room.
  destruct (array_lookup _ _ _) as [enabled|]; [|now left].
  destruct (enabled =? 0); [now left|].
  destruct (ringbuf_has_room _ _ _); [right; now split | now left].
Qed.

(** X10.  With detailed tracing enabled (config key 0 present and non-zero)
    and room in the packet-event channel, the packet-event emitter publishes
    exactly one record, after the ones already there: it carries the clock
    reading and the six arguments, and no other map changes. *)
Theorem emit_packet_event_publishes (e : env)
    (teid src_ip dst_ip pkt_len direction qfi enabled : N) (st : maps) :
  array_lookup agent_config_max_entries (agent_config st) 0 = Some enabled ->
  enabled <> 0 ->
  packet_channel_has_room st = true ->
  teid < 2 ^ 32 -> src_ip < 2 ^ 32 -> dst_ip < 2 ^ 32 -> pkt_len < 2 ^ 32 ->
  direction < 2 ^ 8 -> qfi < 2 ^ 8 ->
  emit_packet_event e teid src_ip dst_ip pkt_len direction qfi st
  = set_packet_events
      (packet_events st ++
       [packet_event.mk (bpf_ktime_get_ns e) teid src_ip dst_ip pkt_len
          direction qfi (packet_event.pad (packet_slot e))]) st.
Proof.
  intros Hcfg Hen Hroom Ht Hs Hd Hl Hdir Hq.
  unfold emit_packet_event, bpf_ringbuf_reserve.
  unfold packet_channel_has_room in Hroom.
  apply N.eqb_neq in Hen. rewrite Hcfg, Hen, Hroom.
  rewrite !u32_small by assumption.
  unfold u8. rewrite !N.mod_small by assumption. reflexivity.
Qed.

Lemma emit_packet_event_publishes_witness :
  emit_packet_event env0 7 1 2 1500 1 9 saturated_maps = saturated_maps
  /\ emit_packet_event env0 7 1 2 1500 1 9
       (set_agent_config [1; 0; 0; 0] saturated_maps)
     = set_packet_events
         [packet_event.mk (bpf_ktime_get_ns env0) 7 1 2 1500 1 9 [0xCC; 0xDD]]
         (set_agent_config [1; 0; 0; 0] saturated_maps).
Proof.
  split; [reflexivity|].
  apply (emit_packet_event_publishes env0 7 1 2 1500 1 9 1
           (set_agent_config [1; 0; 0; 0] saturated_maps));
    try reflexivity.
  discriminate.
Defined.

(** X11.  Whatever its arguments and the configuration, the packet-event
    emitter changes nothing but the packet-event channel, keeps the records
    already committed at the front of it, adds at most one record, and never
    takes the channel beyond 13107 records. *)
Theorem emit_packet_event_appends_within_capacity (e : env)
    (teid src_ip dst_ip pkt_len direction qfi : N) (st : maps) :
  let st' := emit_packet_event e teid src_ip dst_ip pkt_len direction qfi st in
  st' = set_packet_events (packet_events st') st
  /\ packet_events st `prefix_of` packet_events st'
  /\ (length (packet_events st') <= S (length (packet_events st)))%nat
  /\ N.of_nat packet_events_capacity = 13107
  /\ ((length (packet_events st) <= packet_events_capacity)%nat ->
      (length (packet_events st') <= packet_events_capacity)%nat).
Proof.
  simpl.
  destruct (emit_packet_event_cases e teid src_ip dst_ip pkt_len direction qfi st)
    as [Hsame | [Hroom Hnew]].
  - rewrite Hsame. split; [now destruct st|].
    split; [reflexivity|]. split; [lia|]. split; [reflexivity|]. tauto.
  - rewrite Hnew. simpl. split; [reflexivity|].
    split; [now apply prefix_app_r|].
    rewrite length_app. simpl.
    apply packet_channel_room_iff in Hroom.
    split; [lia|]. split; [reflexivity|]. lia.
Qed.

Lemma emit_packet_event_appends_within_capacity_witness :
  (length (packet_events (emit_packet_event env0 7 1 2 1500 1 9 saturated_channels))
   <= packet_events_capacity)%nat.
Proof.
  destruct (emit_packet_event_appends_within_capacity env0 7 1 2 1500 1 9
              saturated_channels) as (_ & _ & _ & _ & Hcap).
  apply Hcap. vm_compute. reflexivity.
Defined.

(** ** The TEID-counter update *)

Lemma update_teid_counter_cases (e : env) (teid len : N) (st : maps) :
  let st' := update_teid_counter e teid len st in
  (exists c,
      teid_stats st !! u32 teid = Some c
      /\ st' = set_teid_stats
                 (<[u32 teid :=
                      traffic_counter.mk
                        (u64 (traffic_counter.packets c + 1))
                        (u64 (traffic_counter.bytes c + u32 len))
                        (bpf_ktime_get_ns e)]> (teid_stats st)) st)
  \/ (teid_stats st !! u32 teid = None
      /\ N.of_nat (size (teid_stats st)) < teid_stats_max_entries
      /\ st' = set_teid_stats
                 (<[u32 teid := traffic_counter.mk 1 (u32 len) (bpf_ktime_get_ns e)]>
                    (teid_stats st)) st)
  \/ (teid_stats st !! u32 teid = None
      /\ teid_stats_max_entries <= N.of_nat (size (teid_stats st))
      /\ st' = st).
Proof.
  simpl. unfold update_teid_counter, hash_update.
  destruct (teid_stats st !! u32 teid) as [c|] eqn:Hc.
  - left. exists c. now split.
  - right. destruct (N.ltb_spec (N.of_nat (size (teid_stats st))) teid_stats_max_entries).
    + left. now repeat split.
    + right. repeat split; [assumption|]. now destruct st.
Qed.

(** X12.  The TEID-counter update touches one key of one map: entries of
    other TEIDs and all other maps are unchanged, no key is ever removed, and
    a table of at most 4096 entries keeps at most 4096 entries. *)
Theorem update_teid_counter_keeps_table (e : env) (teid len : N) (st : maps) :
  let st' := update_teid_counter e teid len st in
  st' = set_teid_stats (teid_stats st') st
  /\ (forall k, k <> u32 teid -> teid_stats st' !! k = teid_stats st !! k)
  /\ (forall k, is_Some (teid_stats st !! k) -> is_Some (teid_stats st' !! k))
  /\ (N.of_nat (size (teid_stats st)) <= teid_stats_max_entries ->
      N.of_nat (size (teid_stats st')) <= teid_stats_max_entries).
Proof.
  simpl.
  destruct (update_teid_counter_cases e teid len st)
    as [(c & Hc & ->) | [(Hc & Hroom & ->) | (Hc & Hfull & ->)]]; simpl.
  - split; [reflexivity|]. split; [|split].
    + intros k Hk. now apply lookup_insert_ne.
    + intros k Hk. destruct (decide (k = u32 teid)) as [-> | Hne].
      * rewrite lookup_insert_eq. eauto.
      * now rewrite lookup_insert_ne.
    + rewrite map_size_insert_Some by eauto. tauto.
  - split; [reflexivity|]. split; [|split].
    + intros k Hk. now apply lookup_insert_ne.
    + intros k Hk. destruct (decide (k = u32 teid)) as [-> | Hne].
      * rewrite lookup_insert_eq. eauto.
      * now rewrite lookup_insert_ne.
    + rewrite map_size_insert_None by assumption. lia.
  - split; [now destruct st|]. tauto.
Qed.

Lemma update_teid_counter_keeps_table_witness :
  N.of_nat (size (teid_stats (update_teid_counter env0 4096 100 full_teid_maps)))
  <= teid_stats_max_entries.
Proof.
  destruct (update_teid_counter_keeps_table env0 4096 100 full_teid_maps)
    as (_ & _ & _ & Hsize).
  apply Hsize. vm_compute. discriminate.
Defined.

(** X13.  When the TEID-counter table is at capacity, a TEID without an
    entry is not counted at all (no map changes), while a TEID that has an
    entry is still counted: its entry gets one more packet and the length
    added, in 64-bit arithmetic, and the clock reading. *)
Theorem update_teid_counter_at_capacity (e : env) (teid len : N) (st : maps) :
  teid_stats_max_entries <= N.of_nat (size (teid_stats st)) ->
  (teid_stats st !! u32 teid = None -> update_teid_counter e teid len st = st)
  /\ (forall c,
        teid_stats st !! u32 teid = Some c ->
        teid_stats (update_teid_counter e teid len st) !! u32 teid
        = Some (traffic_counter.mk
                  (u64 (traffic_counter.packets c + 1))
                  (u64 (traffic_counter.bytes c + u32 len))
                  (bpf_ktime_get_ns e))).
Proof.
  intros Hfull.
  destruct (update_teid_counter_cases e teid len st)
    as [(c & Hc & Hst) | [(Hc & Hroom & Hst) | (Hc & _ & Hst)]].
  - split; [congruence|]. intros c' Hc'. simpl in Hst. rewrite Hst. simpl.
    rewrite lookup_insert_eq. congruence.
  - apply N.lt_nge in Hroom. contradiction.
  - split; [now intros _|]. congruence.
Qed.

Lemma update_teid_counter_at_capacity_witness :
  update_teid_counter env0 4096 100 full_teid_maps = full_teid_maps
  /\ teid_stats (update_teid_counter env0 5 100 full_teid_maps) !! 5
     = Some (traffic_counter.mk 1 100 1000).
Proof.
  split.
  - apply (update_teid_counter_at_capacity env0 4096 100 full_teid_maps).
    + vm_compute. discriminate.
    + vm_compute. reflexivity.
  - destruct (update_teid_counter_at_capacity env0 5 100 full_teid_maps)
      as [_ Hhit].
    + vm_compute. discriminate.
    + apply (Hhit traffic_counter.zero). vm_compute. reflexivity.
Defined.

Lemma observe_teid_present (obs : list (env * N)) (teid : N) (st : maps)
    (k : traffic_counter.t) :
  teid_stats st !! u32 teid = Some k ->
  counter_in_range k ->
  exists k',
    teid_stats (observe_teid obs teid st) !! u32 teid = Some k'
    /\ traffic_counter.packets k'
       = u64 (traffic_counter.packets k + N.of_nat (length obs))
    /\ traffic_counter.bytes k' = u64 (traffic_counter.bytes k + total_len obs).
Proof.
  revert st k. induction obs as [|[e len] rest IH]; intros st k Hk [Hp Hb]; simpl.
  - exists k. rewrite !N.add_0_r, !u64_small by assumption. now repeat split.
  - destruct (update_teid_counter_cases e teid len st)
      as [(c & Hc & Hst) | [(Hc & _) | (Hc & _)]]; try congruence.
    simpl in Hst. assert (c = k) as -> by congruence.
    destruct (IH (update_teid_counter e teid len st)
                (traffic_counter.mk
                   (u64 (traffic_counter.packets k + 1))
                   (u64 (traffic_counter.bytes k + u32 len))
                   (bpf_ktime_get_ns e)))
      as (k' & Hk' & Hp' & Hb').
    { rewrite Hst. simpl. apply lookup_insert_eq. }
    { split; apply u64_bound. }
    exists k'. split; [exact Hk'|]. simpl in Hp', Hb'.
    rewrite Hp', Hb', !u64_add_l.
    split; f_equal; lia.
Qed.

(** X15.  Observations of one TEID add up: starting from a table with room
    and no entry for the TEID, after n observations (n at least 1) the entry
    has packets = n and bytes = the sum of the observed lengths, both modulo
    2^64. *)
Theorem observe_teid_accumulates (o : env * N) (obs : list (env * N))
    (teid : N) (st : maps) :
  teid_stats st !! u32 teid = None ->
  N.of_nat (size (teid_stats st)) < teid_stats_max_entries ->
  exists k,
    teid_stats (observe_teid (o :: obs) teid st) !! u32 teid = Some k
    /\ traffic_counter.packets k = u64 (N.of_nat (length (o :: obs)))
    /\ traffic_counter.bytes k = u64 (total_len (o :: obs)).
Proof.
  intros Hnone Hroom. destruct o as [e len]. simpl.
  destruct (update_teid_counter_cases e teid len st)
    as [(c & Hc & _) | [(_ & _ & Hst) | (_ & Hfull & _)]].
  - congruence.
  - simpl in Hst.
    destruct (observe_teid_present obs teid (update_teid_counter e teid len st)
                (traffic_counter.mk 1 (u32 len) (bpf_ktime_get_ns e)))
      as (k & Hk & Hp & Hb).
    { rewrite Hst. simpl. apply lookup_insert_eq. }
    { split; simpl; [reflexivity|].
      eapply N.lt_trans; [apply u32_bound | reflexivity]. }
    exists k. split; [exact Hk|]. simpl in Hp, Hb. rewrite Hp, Hb.
    split; f_equal; lia.
  - apply N.lt_nge in Hroom. contradiction.
Qed.

Lemma observe_teid_accumulates_witness :
  exists k,
    teid_stats (observe_teid [(env0, 100); (env1, 60); (env1, 1500)] 7
                  (initial_maps 1)) !! u32 7 = Some k
    /\ traffic_counter.packets k = u64 3
    /\ traffic_counter.bytes k = u64 (total_len [(env0, 100); (env1, 60); (env1, 1500)]).
Proof.
  apply (observe_teid_accumulates (env0, 100) [(env1, 60); (env1, 1500)] 7
           (initial_maps 1)); reflexivity.
Defined.

Example observe_teid_three :
  teid_stats (observe_teid [(env0, 100); (env1, 60); (env1, 1500)] 7
                (initial_maps 1)) !! 7
  = Some (traffic_counter.mk 3 1660 2000).
Proof. reflexivity. Qed.

(** ** Updates of different counters commute *)

Lemma percpu_array_store_commute {V} (m : list (list V)) (c1 c2 : nat)
    (k1 k2 : N) (v1 v2 : V) :
  c1 <> c2 \/ k1 <> k2 ->
  percpu_array_store (percpu_array_store m c2 k2 v2) c1 k1 v1
  = percpu_array_store (percpu_array_store m c1 k1 v1) c2 k2 v2.
Proof.
  intros Hne. unfold percpu_array_store. apply list_eq. intros i.
  destruct (decide (c1 = c2)) as [<- | Hc].
  - destruct Hne as [Hne | Hne]; [contradiction|].
    destruct (decide (c1 = i)) as [<- | Hi].
    + rewrite !list_lookup_alter_eq.
      destruct (m !! c1) as [row|]; simpl; [|reflexivity].
      f_equal. apply list_insert_insert_ne. lia.
    + now rewrite !list_lookup_alter_ne by assumption.
  - destruct (decide (c1 = i)) as [<- | Hi1].
    + rewrite list_lookup_alter_eq, !list_lookup_alter_ne by congruence.
      now rewrite list_lookup_alter_eq.
    + rewrite list_lookup_alter_ne by assumption.
      destruct (decide (c2 = i)) as [<- | Hi2].
      * now rewrite !list_lookup_alter_eq, list_lookup_alter_ne by assumption.
      * now rewrite !list_lookup_alter_ne by assumption.
Qed.

Lemma percpu_lookup_store_other {V} (max_entries : N) (m : list (list V))
    (c c' : nat) (key key' : N) (v : V) :
  c <> c' \/ key <> key' ->
  percpu_array_lookup max_entries (percpu_array_store m c key v) c' key'
  = percpu_array_lookup max_entries m c' key'.
Proof.
  intros Hne. destruct (decide (c = c')) as [<- | Hc].
  - apply percpu_lookup_store_other_key. destruct Hne; congruence.
  - now apply percpu_lookup_store_other_cpu.
Qed.

(** X14.  Counter updates that go to different slots (another CPU, or the
    other direction on the same CPU) commute: the maps after the two updates
    do not depend on the order in which the two invocations ran. *)
Theorem update_traffic_counter_commute (e1 e2 : env) (d1 d2 l1 l2 : N) (st : maps) :
  cpu e1 <> cpu e2 \/ u32 d1 <> u32 d2 ->
  update_traffic_counter e1 d1 l1 (update_traffic_counter e2 d2 l2 st)
  = update_traffic_counter e2 d2 l2 (update_traffic_counter e1 d1 l1 st).
Proof.
  intros Hne.
  assert (Hne' : cpu e2 <> cpu e1 \/ u32 d2 <> u32 d1)
    by (destruct Hne; [left | right]; congruence).
  unfold update_traffic_counter.
  destruct (percpu_array_lookup _ (traffic_stats st) (cpu e1) (u32 d1))
    as [k1|] eqn:H1;
  destruct (percpu_array_lookup _ (traffic_stats st) (cpu e2) (u32 d2))
    as [k2|] eqn:H2; simpl;
  rewrite ?percpu_lookup_store_other by assumption;
  rewrite ?H1, ?H2; simpl; try reflexivity.
  unfold set_traffic_stats. simpl. f_equal.
  now apply percpu_array_store_commute.
Qed.

Lemma update_traffic_counter_commute_witness :
  update_traffic_counter env0 DIRECTION_UPLINK 100
    (update_traffic_counter env_cpu1 DIRECTION_UPLINK 1500 two_cpu_maps)
  = update_traffic_counter env_cpu1 DIRECTION_UPLINK 1500
      (update_traffic_counter env0 DIRECTION_UPLINK 100 two_cpu_maps).
Proof.
  apply (update_traffic_counter_commute env0 env_cpu1
           DIRECTION_UPLINK DIRECTION_UPLINK 100 1500 two_cpu_maps).
  left. discriminate.
Defined.
